(** * The Telegram adapter of koishi: API shim and webhook server

    A shallow embedding of [packages/adapter-telegram/src/api.ts] (the
    methods added to [Bot.prototype]) and of the webhook server class
    [TelegramHTTPServer], together with the properties stated about them.

    JavaScript values are a small inductive type, objects used as records
    are association lists in insertion order, objects used as maps are
    [gmap]s.  Asynchronous functions are run to completion one after the
    other (the event loop is single threaded and every call is awaited), so
    an [async] function is a state transformer that either returns or
    throws; what it did before throwing stays done. *)

From Stdlib Require Import ZArith Lia Ascii String DecimalString.
From stdpp Require Import base strings list gmap.

Set Warnings "-register-all".
Local Open Scope Z_scope.
Local Open Scope string_scope.

(** ** JavaScript values *)

Module Js.

Inductive JsValue : Type :=
| VUndefined
| VNull
| VBool (b : bool)
| VNum (n : Z)
| VStr (s : string)
| VArr (items : list JsValue)
| VObj (fields : list (string * JsValue)).

(** What a [throw] carries.  [SenderError] is the class of api.ts; the two
    others are the built-in classes the code can raise. *)
Inductive Exn : Type :=
| SenderError (args : JsValue) (url : string) (retcode : Z) (selfId : Z)
| TypeError (msg : string)
| Error (msg : string).

Inductive Completion (A : Type) : Type :=
| Return (a : A)
| Throw (e : Exn).
Arguments Return {A} a.
Arguments Throw {A} e.

Definition is_return {A} (c : Completion A) : bool :=
  match c with Return _ => true | Throw _ => false end.

(** [!s] on a string: only the empty string is falsy. *)
Definition str_truthy (s : string) : bool :=
  match s with EmptyString => false | String _ _ => true end.

(** Truthiness of a value that is a string or [undefined]. *)
Definition opt_truthy (o : option string) : bool :=
  match o with Some s => str_truthy s | None => false end.

Definition truthy (v : JsValue) : bool :=
  match v with
  | VUndefined | VNull => false
  | VBool b => b
  | VNum n => negb (Z.eqb n 0)
  | VStr s => str_truthy s
  | VArr _ | VObj _ => true
  end.

Fixpoint assoc (k : string) (fields : list (string * JsValue)) : option JsValue :=
  match fields with
  | [] => None
  | (k', v) :: rest => if String.eqb k k' then Some v else assoc k rest
  end.

(** [o[k] = v] on an object: an existing key keeps its place, a new key
    goes last. *)
Fixpoint obj_set (fields : list (string * JsValue)) (k : string) (v : JsValue)
  : list (string * JsValue) :=
  match fields with
  | [] => [(k, v)]
  | (k', v') :: rest =>
      if String.eqb k k' then (k, v) :: rest else (k', v') :: obj_set rest k v
  end.

(** [v.k]: reading a property of [undefined] or [null] throws a
    [TypeError]; a missing property, or a property of a primitive that has
    none, reads as [undefined]. *)
Definition getProp (v : JsValue) (k : string) : Completion JsValue :=
  match v with
  | VUndefined => Throw (TypeError ("Cannot read property '" ++ k ++ "' of undefined"))
  | VNull => Throw (TypeError ("Cannot read property '" ++ k ++ "' of null"))
  | VObj fields => Return (default VUndefined (assoc k fields))
  | _ => Return VUndefined
  end.

End Js.
Export Js.

(** ** The helpers of koishi-utils *)

Module KoishiUtils.

Definition is_upper (c : ascii) : bool :=
  let n := nat_of_ascii c in (65 <=? n)%nat && (n <=? 90)%nat.
Definition is_lower (c : ascii) : bool :=
  let n := nat_of_ascii c in (97 <=? n)%nat && (n <=? 122)%nat.
Definition to_lower (c : ascii) : ascii :=
  if is_upper c then ascii_of_nat (nat_of_ascii c + 32) else c.
Definition to_upper (c : ascii) : ascii :=
  if is_lower c then ascii_of_nat (nat_of_ascii c - 32) else c.
Definition is_separator (c : ascii) : bool :=
  Ascii.eqb c "_"%char || Ascii.eqb c "-"%char.

(** Modelled from the spec: the key renaming of koishi-utils, whose source
    is not among the files of the adapter.  The spec only says that
    parameter keys are converted "to the remote naming convention"
    (snake_case) and responses "back to the local naming convention"
    (camelCase); here every upper-case letter becomes an underscore and the
    lower-case letter. *)
Fixpoint snake_string (s : string) : string :=
  match s with
  | EmptyString => EmptyString
  | String c rest =>
      if is_upper c then String "_"%char (String (to_lower c) (snake_string rest))
      else String c (snake_string rest)
  end.

(** Modelled from the spec: the inverse renaming, a separator followed by a
    lower-case letter becomes the upper-case letter. *)
Fixpoint camel_string (s : string) : string :=
  match s with
  | EmptyString => EmptyString
  | String c rest =>
      match rest with
      | String d rest' =>
          if is_separator c && is_lower d
          then String (to_upper d) (camel_string rest')
          else String c (camel_string rest)
      | EmptyString => String c EmptyString
      end
  end.

(** Modelled from the spec: a renaming is applied to the keys of an object
    and, through arrays and objects, to the keys of what it holds; other
    values are left alone. *)
Fixpoint modifyObject (f : string -> string) (v : JsValue) : JsValue :=
  match v with
  | VArr items => VArr (List.map (modifyObject f) items)
  | VObj fields =>
      VObj (List.fold_left
              (fun acc kv => obj_set acc (f (fst kv)) (modifyObject f (snd kv)))
              fields [])
  | _ => v
  end.

Definition deepen (f : string -> string) (v : JsValue) : JsValue :=
  match v with
  | VStr s => VStr (f s)
  | _ => modifyObject f v
  end.

Definition snakeCase : JsValue -> JsValue := deepen snake_string.
Definition camelCase : JsValue -> JsValue := deepen camel_string.

(** Modelled from the spec: [assertProperty(config, key)] of koishi-utils,
    whose source is not among the files of the adapter.  The constructor
    uses it to "validate that a port is configured": it throws when the
    property is not set (falsy) and returns it otherwise. *)
Definition assertProperty (config : JsValue) (key : string) : Completion JsValue :=
  match getProp config key with
  | Return v =>
      if truthy v then Return v
      else Throw (Error ("missing configuration '" ++ key ++ "'"))
  | Throw e => Throw e
  end.

(** Modelled from the spec: [defineProperty(object, key, value)] of
    koishi-utils "attaches" the value to the object under the key; an
    object is the map of its properties. *)
Definition defineProperty {V} (object : gmap string V) (key : string) (value : V)
  : gmap string V :=
  <[key := value]> object.

(** Modelled from the spec: [JSON.stringify], which "serializes a reply
    payload".  [undefined] has no serialization; inside an array it reads
    [null], and an object leaves out the properties that hold it.  Of the
    characters of a string only the quote and the backslash are escaped,
    and a number is printed digit by digit: strings with control characters
    and numbers JavaScript prints with an exponent are not covered. *)
Definition quote : ascii := ascii_of_nat 34.
Definition backslash : ascii := ascii_of_nat 92.

Fixpoint escape (s : string) : string :=
  match s with
  | EmptyString => EmptyString
  | String c rest =>
      if Ascii.eqb c quote || Ascii.eqb c backslash
      then String backslash (String c (escape rest))
      else String c (escape rest)
  end.

Definition quoted (s : string) : string :=
  String quote (escape s ++ String quote EmptyString).

Fixpoint join (sep : string) (parts : list string) : string :=
  match parts with
  | [] => ""
  | [x] => x
  | x :: rest => x ++ sep ++ join sep rest
  end.

Fixpoint stringify (v : JsValue) : option string :=
  match v with
  | VUndefined => None
  | VNull => Some "null"
  | VBool true => Some "true"
  | VBool false => Some "false"
  | VNum n => Some (NilZero.string_of_int (Z.to_int n))
  | VStr s => Some (quoted s)
  | VArr items =>
      Some ("[" ++ join "," (List.map (fun x => default "null" (stringify x)) items)
                ++ "]")
  | VObj fields =>
      Some ("{" ++ join ","
                     (List.fold_right
                        (fun kv acc =>
                           match stringify (snd kv) with
                           | Some t => (quoted (fst kv) ++ ":" ++ t) :: acc
                           | None => acc
                           end) [] fields)
                ++ "}")
  end.

End KoishiUtils.

(** ** CQ codes *)

Module CQCode.

(** A segment of a parsed message: plain text, or a CQ code with its type
    and its attributes ([node.data]). *)
Inductive CQNode : Type :=
| Text (s : string)
| Code (type : string) (attrs : gmap string string).

Definition is_digit (c : ascii) : bool :=
  let n := nat_of_ascii c in (48 <=? n)%nat && (n <=? 57)%nat.
Definition is_word (c : ascii) : bool :=
  KoishiUtils.is_upper c || KoishiUtils.is_lower c || is_digit c
  || Ascii.eqb c "_"%char.
Definition is_value_char (c : ascii) : bool :=
  negb (Ascii.eqb c ","%char || Ascii.eqb c "]"%char).

Fixpoint span (p : ascii -> bool) (l : list ascii) : list ascii * list ascii :=
  match l with
  | c :: rest =>
      if p c then let '(a, b) := span p rest in (c :: a, b) else ([], l)
  | [] => ([], [])
  end.

Fixpoint starts_with (pat l : list ascii) : option (list ascii) :=
  match pat, l with
  | [], _ => Some l
  | p :: pat', c :: l' => if Ascii.eqb p c then starts_with pat' l' else None
  | _ :: _, [] => None
  end.

(** Every occurrence of [pat] becomes [rep], left to right; [skip] counts
    the characters of an occurrence still to be dropped. *)
Fixpoint replace_from (pat rep : list ascii) (skip : nat) (l : list ascii)
  : list ascii :=
  match l with
  | [] => []
  | c :: rest =>
      match skip with
      | S k => replace_from pat rep k rest
      | O =>
          match starts_with pat l with
          | Some _ => (rep ++ replace_from pat rep (length pat - 1) rest)%list
          | None => c :: replace_from pat rep O rest
          end
      end
  end.

Definition replace_all (pat rep : string) (l : list ascii) : list ascii :=
  replace_from (list_ascii_of_string pat) (list_ascii_of_string rep) O l.

(** Modelled from the spec: the escapes of the CQ message format are
    undone in text and in attribute values. *)
Definition unescape (l : list ascii) : string :=
  string_of_list_ascii
    (replace_all "&amp;" "&"
       (replace_all "&#44;" ","
          (replace_all "&#93;" "]" (replace_all "&#91;" "[" l)))).

(** One or more [,key=value], then the closing bracket. *)
Fixpoint attributes (fuel : nat) (l : list ascii) (acc : gmap string string)
  : option (gmap string string * list ascii) :=
  match fuel with
  | O => None
  | S fuel' =>
      match starts_with [","%char] l with
      | None => None
      | Some l1 =>
          let '(key, l2) := span is_word l1 in
          match key, starts_with ["="%char] l2 with
          | _ :: _, Some l3 =>
              let '(value, l4) := span is_value_char l3 in
              let acc' := <[string_of_list_ascii key := unescape value]> acc in
              match l4 with
              | c :: rest =>
                  if Ascii.eqb c "]"%char then Some (acc', rest)
                  else attributes fuel' l4 acc'
              | [] => None
              end
          | _, _ => None
          end
      end
  end.

(** A code at the head of the input: [[CQ:type,key=value,...]]. *)
Definition code_at (l : list ascii) : option (CQNode * list ascii) :=
  match starts_with (list_ascii_of_string "[CQ:") l with
  | None => None
  | Some l1 =>
      let '(type, l2) := span is_word l1 in
      match type with
      | [] => None
      | _ :: _ =>
          match attributes (length l2) l2 ∅ with
          | Some (attrs, rest) => Some (Code (string_of_list_ascii type) attrs, rest)
          | None => None
          end
      end
  end.

Definition text_node (pending : list ascii) : list CQNode :=
  match pending with
  | [] => []
  | _ :: _ => [Text (unescape (rev pending))]
  end.

Fixpoint scan (fuel : nat) (l pending : list ascii) : list CQNode :=
  match fuel with
  | O => text_node pending
  | S fuel' =>
      match l with
      | [] => text_node pending
      | c :: rest =>
          match code_at l with
          | Some (node, after) => (text_node pending ++ node :: scan fuel' after [])%list
          | None => scan fuel' rest (c :: pending)
          end
      end
  end.

(** Modelled from the spec: [CQCode.parseAll] of koishi-utils, whose source
    is not among the files of the adapter, "splits a mixed text/inline-image
    message into segments": the codes [[CQ:type,key=value,...]] of the
    message, and between them the text, in order; there is no empty text
    segment. *)
Definition parseAll (source : string) : list CQNode :=
  scan (S (String.length source)) (list_ascii_of_string source) [].

End CQCode.
Export CQCode.

(** ** Awaited computations

    A computation over a world [W]: it leaves a world behind and either
    returns or throws. *)

Module Async.

Definition M (W A : Type) : Type := W -> Completion A * W.

Definition ret {W A} (a : A) : M W A := fun w => (Return a, w).
Definition throw {W A} (e : Exn) : M W A := fun w => (Throw e, w).
Definition lift {W A} (c : Completion A) : M W A := fun w => (c, w).
Definition modify {W} (f : W -> W) : M W unit := fun w => (Return tt, f w).
Definition gets {W A} (f : W -> A) : M W A := fun w => (Return (f w), w).

Definition bind {W A B} (m : M W A) (k : A -> M W B) : M W B :=
  fun w =>
    match m w with
    | (Return a, w') => k a w'
    | (Throw e, w') => (Throw e, w')
    end.

(** [try { m } catch { h }] *)
Definition try_catch {W A} (m : M W A) (h : Exn -> M W A) : M W A :=
  fun w =>
    match m w with
    | (Return a, w') => (Return a, w')
    | (Throw e, w') => h e w'
    end.

Declare Scope js_scope.
Delimit Scope js_scope with js.
Notation "x <- m ;; k" := (bind m (fun x => k))
  (at level 100, m at next level, right associativity) : js_scope.
Notation "m ;;; k" := (bind m (fun _ => k))
  (at level 100, right associativity) : js_scope.

End Async.
Export Async.

(** ** api.ts: the methods added to [Bot.prototype] *)

Module Api.

(** [chatId: string | number] *)
Inductive ChatId : Type :=
| ChatNum (n : Z)
| ChatStr (s : string).

Definition chat_value (c : ChatId) : JsValue :=
  match c with ChatNum n => VNum n | ChatStr s => VStr s end.

(** [interface CQResponse].  [retcode] is a [number] in the source; the
    codes of the remote side are whole numbers and are modelled as such, a
    fractional code or [NaN] is outside the model. *)
Record CQResponse : Type := {
  status : string;
  retcode : Z;
  data : JsValue;
  echo : option Z;
}.

(** What a run leaves behind, in the order it happened.  [EvRequest] is a
    call of [this._request]; [EvSendMsg] and [EvSendPhoto] mark the entry
    into [_sendMsg] and [_sendPhoto] (calls, whether or not they reach the
    remote side); the two [EvDebug] events are the [logger.debug] lines of
    [get]; [EvHost] is whatever the host's listeners record. *)
Inductive Event : Type :=
| EvDebugRequest (action : string) (params : JsValue)
| EvDebugResponse (response : CQResponse)
| EvRequest (action : string) (params : JsValue)
| EvSendMsg (chatId : ChatId) (message : string)
| EvSendPhoto (chatId : ChatId) (caption photo : string)
| EvHost (name : string) (payload : JsValue).

(** The part of a [Bot] the adapter reads.  [_request] is optional in the
    declaration ([_request?]): it is installed when the server starts
    listening.  The remote side answers a request knowing everything that
    happened before it, and either resolves to a response or rejects. *)
Record Bot : Type := {
  selfId : Z;
  ready : bool;
  _request : option (list Event -> string -> JsValue -> Completion CQResponse);
}.

Definition M (A : Type) : Type := Async.M (list Event) A.

Definition record (e : Event) : M unit := modify (fun w => (w ++ [e])%list).

Local Open Scope js_scope.

(** The functions api.ts imports from koishi-utils. *)
Class Utils : Type := {
  snakeCase : JsValue -> JsValue;
  camelCase : JsValue -> JsValue;
  parseAll : string -> list CQNode;
}.

(** [Session], as far as api.ts touches it. *)
Record Session : Type := {
  message : string;
  messageId : JsValue;
  fields : gmap string JsValue;
}.

Definition set_messageId (s : Session) (v : JsValue) : Session :=
  {| message := message s; messageId := v; fields := fields s |}.

(** The methods of the host api.ts calls: [Bot.createSession], and
    [app.bail] and [app.emit], which run the listeners on the session
    (they may change it, and may veto with a truthy result). *)
Class Host : Type := {
  createSession : Bot -> string -> string -> ChatId -> string -> Session;
  bail : Session -> string -> M (bool * Session);
  emit : Session -> string -> M Session;
}.

Section Methods.
Context `{Utils}.

(** [await this._request(action, params)] *)
Definition request (bot : Bot) (action : string) (params : JsValue) : M CQResponse :=
  match _request bot with
  | None => throw (TypeError "this._request is not a function")
  | Some f => fun w => (f w action params, (w ++ [EvRequest action params])%list)
  end.

(** [Bot.prototype.get]; the defaults [params = {}] and [silent = false]
    are written out by the callers. *)
Definition get (bot : Bot) (action : string) (params : JsValue) (silent : bool)
  : M JsValue :=
  record (EvDebugRequest action params) ;;;
  response <- request bot action (snakeCase params) ;;
  record (EvDebugResponse response) ;;;
  let data := data response in
  let retcode := retcode response in
  if (retcode =? 0)%Z && negb silent then ret (camelCase data)
  else if (retcode <? 0)%Z && negb silent then
    throw (SenderError params action retcode (selfId bot))
  else if (retcode >? 1)%Z then
    throw (SenderError params action retcode (selfId bot))
  else ret VUndefined.

(** [Bot.prototype._sendMsg]: the answer of [get] is awaited and dropped,
    the function has no [return] with a value. *)
Definition _sendMsg (bot : Bot) (chatId : ChatId) (message : string) : M JsValue :=
  record (EvSendMsg chatId message) ;;;
  if negb (str_truthy message) then ret VUndefined
  else
    get bot "send_message"
        (VObj [("chatId", chat_value chatId); ("message", VStr message)]) false ;;;
    ret VUndefined.

(** [Bot.prototype._sendPhoto], alike. *)
Definition _sendPhoto (bot : Bot) (chatId : ChatId) (caption photo : string)
  : M JsValue :=
  record (EvSendPhoto chatId caption photo) ;;;
  if negb (str_truthy photo) then ret VUndefined
  else
    get bot "send_photo"
        (VObj [("chatId", chat_value chatId); ("caption", VStr caption);
               ("photo", VStr photo)]) false ;;;
    ret VUndefined.

(** The locals of [sendMsg]: [payload.message], [payload.image] (a string,
    or [undefined] once it was read from a code without [url]) and
    [result]. *)
Record Locals : Type := {
  p_message : string;
  p_image : option string;
  result : JsValue;
}.

Definition locals0 : Locals :=
  {| p_message := ""; p_image := Some ""; result := VUndefined |}.

(** The flush: one photo send, then both buffers are emptied. *)
Definition flush (bot : Bot) (chatId : ChatId) (st : Locals) : M Locals :=
  r <- _sendPhoto bot chatId (p_message st) (default "" (p_image st)) ;;
  ret {| p_message := ""; p_image := Some ""; result := r |}.

(** One turn of [for (const node of chain)]. *)
Definition sendMsg_node (bot : Bot) (chatId : ChatId) (node : CQNode) (st : Locals)
  : M Locals :=
  match node with
  | Text s =>
      ret {| p_message := p_message st ++ s; p_image := p_image st;
             result := result st |}
  | Code type attrs =>
      if String.eqb type "image" then
        st1 <- (if opt_truthy (p_image st) then flush bot chatId st else ret st) ;;
        ret {| p_message := p_message st1; p_image := attrs !! "url";
               result := result st1 |}
      else ret st
  end.

Fixpoint sendMsg_loop (bot : Bot) (chatId : ChatId) (chain : list CQNode)
  (st : Locals) : M Locals :=
  match chain with
  | [] => ret st
  | node :: rest =>
      st1 <- sendMsg_node bot chatId node st ;;
      sendMsg_loop bot chatId rest st1
  end.

(** What follows the loop. *)
Definition sendMsg_finish (bot : Bot) (chatId : ChatId) (st : Locals) : M JsValue :=
  st1 <- (if opt_truthy (p_image st) then flush bot chatId st
          else if str_truthy (p_message st) then
            r <- _sendMsg bot chatId (p_message st) ;;
            ret {| p_message := p_message st; p_image := p_image st; result := r |}
          else ret st) ;;
  lift (getProp (result st1) "messageId").

(** [sendMsg] on the chain [CQCode.parseAll] gave. *)
Definition sendMsg_chain (bot : Bot) (chatId : ChatId) (chain : list CQNode)
  : M JsValue :=
  st <- sendMsg_loop bot chatId chain locals0 ;;
  sendMsg_finish bot chatId st.

(** [Bot.prototype.sendMsg] *)
Definition sendMsg (bot : Bot) (chatId : ChatId) (message : string) : M JsValue :=
  sendMsg_chain bot chatId (parseAll message).

(** [BotStatusCode] of koishi-core *)
Inductive BotStatusCode : Type :=
| GOOD | BOT_IDLE | BOT_OFFLINE | NET_ERROR | SERVER_ERROR.

Definition getSelfId (bot : Bot) : M JsValue :=
  r <- get bot "getMe" (VObj []) false ;;
  lift (getProp r "id").

Definition getStatusCode (bot : Bot) : M BotStatusCode :=
  if negb (ready bot) then ret BOT_IDLE
  else
    try_catch (get bot "getMe" (VObj []) false ;;; ret GOOD)
              (fun _ => ret NET_ERROR).

Definition setGroupLeave (bot : Bot) (chatId : ChatId) : M JsValue :=
  get bot "leave_chat" (VObj [("chatId", chat_value chatId)]) false.

(** [Object.fromEntries(params.map((name, index) => [name, args[index]]))] *)
Fixpoint fromEntries (params : list string) (args : list JsValue)
  (acc : list (string * JsValue)) : list (string * JsValue) :=
  match params with
  | [] => acc
  | name :: params' =>
      fromEntries params' (tail args) (obj_set acc name (default VUndefined (head args)))
  end.

(** The method [defineSync(name, ...params)] installs. *)
Definition defineSync (name : string) (params : list string)
  (bot : Bot) (args : list JsValue) : M JsValue :=
  get bot name (VObj (fromEntries params args [])) false.

(** The method [defineReturn(name, value)] installs. *)
Definition defineReturn (name : string) (value : JsValue) (bot : Bot) : M JsValue :=
  ret value.

Context `{Host}.

(** The body shared by [sendGroupMsg] and [sendPrivateMsg], which differ in
    the two strings they give [createSession]. *)
Definition send_session (bot : Bot) (type ctxType : string) (id : ChatId)
  (message : string) : M JsValue :=
  if negb (str_truthy message) then ret VUndefined
  else
    let session := createSession bot type ctxType id message in
    vetoed <- bail session "before-send" ;;
    if fst vetoed then ret VUndefined
    else
      let session := snd vetoed in
      mid <- sendMsg bot id (Api.message session) ;;
      let session := set_messageId session mid in
      session <- emit session "send" ;;
      ret (messageId session).

Definition sendGroupMsg (bot : Bot) (chatId : ChatId) (message : string) : M JsValue :=
  send_session bot "group" "group" chatId message.

Definition sendPrivateMsg (bot : Bot) (userId : ChatId) (message : string) : M JsValue :=
  send_session bot "private" "user" userId message.

End Methods.

(** How often a run entered [_sendPhoto], [_sendMsg], [_request]. *)
Definition is_photo_call (e : Event) : bool :=
  match e with EvSendPhoto _ _ _ => true | _ => false end.
Definition is_text_call (e : Event) : bool :=
  match e with EvSendMsg _ _ => true | _ => false end.
Definition is_remote_call (e : Event) : bool :=
  match e with EvRequest _ _ => true | _ => false end.

Definition photo_calls (w : list Event) : nat := length (List.filter is_photo_call w).
Definition text_calls (w : list Event) : nat := length (List.filter is_text_call w).
Definition remote_calls (w : list Event) : nat := length (List.filter is_remote_call w).

End Api.

(** ** The webhook server: [class TelegramHTTPServer extends Server] *)

Module HttpServer.

(** One entry of [app.options.bots]. *)
Record BotOptions : Type := {
  server : option string;
  type : option string;
  botSelfId : option Z;
}.

(** [app.options], as far as the server reads it. *)
Record AppOptions : Type := {
  port : option Z;
  bots : list BotOptions;
  url : string;
  quickOperation : option Z;
}.

(** [app.options] as the object the helpers of koishi-utils see. *)
Definition options_object (o : AppOptions) : JsValue :=
  VObj [("port", from_option VNum VUndefined (port o));
        ("url", VStr (url o));
        ("quickOperation", from_option VNum VUndefined (quickOperation o))].

(** A function value: the two arrow functions the route handler creates,
    with the [ctx], the session and the timer they close over. *)
Inductive Closure : Type :=
| ResponseCallback (ctx meta timer : nat)
| TimeoutCallback (ctx meta : nat).

(** What a property of a session holds. *)
Inductive Slot : Type :=
| Value (v : JsValue)
| Function (f : Closure).

(** What was called on [ctx.res], with the time of the call. *)
Inductive ResOp : Type :=
| WriteHead (code : Z) (headers : list (string * string))
| Write (chunk : string)
| End_.

(** A Koa context: [ctx.request.body], [ctx.status] (404 until set),
    [ctx.respond] and the calls on [ctx.res]. *)
Record Ctx : Type := {
  body : JsValue;
  status : Z;
  respond : bool;
  res : list (Z * ResOp);
}.

Definition new_ctx (b : JsValue) : Ctx :=
  {| body := b; status := 404; respond := true; res := [] |}.

(** A timer of [setTimeout]: when it is due, what it runs, and whether it
    is still armed. *)
Record Timer : Type := {
  due : Z;
  callback : Closure;
  armed : bool;
}.

Inductive LogEvent : Type :=
| LogInfo (msg : string)
| LogDebug (msg : string) (arg : JsValue)
| SuperCall
| Dispatch (meta : nat).

(** The state of the process: the clock, the contexts and the session
    objects alive (a reference is an index), the timers (a timer id is an
    index), and what was logged, constructed and dispatched. *)
Record World : Type := {
  clock : Z;
  ctxs : list Ctx;
  sessions : list (gmap string Slot);
  timers : list Timer;
  log : list LogEvent;
}.

Definition world0 : World :=
  {| clock := 0; ctxs := []; sessions := []; timers := []; log := [] |}.

Definition M (A : Type) : Type := Async.M World A.

Local Open Scope js_scope.

Definition set_clock (t : Z) : M unit :=
  modify (fun w => {| clock := t; ctxs := ctxs w; sessions := sessions w;
                      timers := timers w; log := log w |}).

Definition update_ctx (c : nat) (f : Ctx -> Ctx) : M unit :=
  modify (fun w => {| clock := clock w; ctxs := alter f c (ctxs w);
                      sessions := sessions w; timers := timers w; log := log w |}).

Definition update_session (m : nat) (f : gmap string Slot -> gmap string Slot)
  : M unit :=
  modify (fun w => {| clock := clock w; ctxs := ctxs w;
                      sessions := alter f m (sessions w);
                      timers := timers w; log := log w |}).

Definition record (e : LogEvent) : M unit :=
  modify (fun w => {| clock := clock w; ctxs := ctxs w; sessions := sessions w;
                      timers := timers w; log := (log w ++ [e])%list |}).

(** A new object: its reference is the next free index. *)
Definition new_ctx_ref (b : JsValue) : M nat :=
  fun w => (Return (length (ctxs w)),
            {| clock := clock w; ctxs := (ctxs w ++ [new_ctx b])%list;
               sessions := sessions w; timers := timers w; log := log w |}).

Definition new_session_ref (s : gmap string Slot) : M nat :=
  fun w => (Return (length (sessions w)),
            {| clock := clock w; ctxs := ctxs w;
               sessions := (sessions w ++ [s])%list;
               timers := timers w; log := log w |}).

(** The longest delay Node takes as given ([TIMEOUT_MAX], 2^31 - 1 ms); a
    delay above it, or below 1, is replaced by 1. *)
Definition TIMEOUT_MAX : Z := 2147483647.

(** [setTimeout(callback, delay)], for a delay from 1 to [TIMEOUT_MAX]: the
    timer is due that many milliseconds from now. *)
Definition setTimeout (cb : Closure) (delay : Z) : M nat :=
  fun w => (Return (length (timers w)),
            {| clock := clock w; ctxs := ctxs w; sessions := sessions w;
               timers := (timers w ++ [{| due := clock w + delay; callback := cb;
                                          armed := true |}])%list;
               log := log w |}).

Definition disarm (t : Timer) : Timer :=
  {| due := due t; callback := callback t; armed := false |}.

(** [clearTimeout(timer)] *)
Definition clearTimeout (timer : nat) : M unit :=
  modify (fun w => {| clock := clock w; ctxs := ctxs w; sessions := sessions w;
                      timers := alter disarm timer (timers w); log := log w |}).

Definition set_status (c : nat) (code : Z) : M unit :=
  update_ctx c (fun x => {| body := body x; status := code; respond := respond x;
                            res := res x |}).

Definition set_respond (c : nat) (b : bool) : M unit :=
  update_ctx c (fun x => {| body := body x; status := status x; respond := b;
                            res := res x |}).

(** A call on [ctx.res], stamped with the clock. *)
Definition res_call (c : nat) (op : ResOp) : M unit :=
  now <- gets clock ;;
  update_ctx c (fun x => {| body := body x; status := status x;
                            respond := respond x;
                            res := (res x ++ [(now, op)])%list |}).

(** [meta[key] = value] *)
Definition set_property (m : nat) (key : string) (value : Slot) : M unit :=
  update_session m (fun s => <[key := value]> s).

(** What the server takes from outside: [snakeCase] of koishi-utils,
    [JSON.stringify], and of the class [Server] of koishi-core the method
    [prepare] (a session object, or nothing) and the constructor. *)
Class Env : Type := {
  snakeCase : JsValue -> JsValue;
  stringify : JsValue -> option string;
  prepare : JsValue -> option (gmap string Slot);
  super : AppOptions -> M unit;
}.

Section Server.
Context `{Env}.

(** [constructor(app)] *)
Definition constructor (options : AppOptions) : M unit :=
  lift (KoishiUtils.assertProperty (options_object options) "port") ;;;
  let bot := List.find (fun bot => opt_truthy (server bot)) (bots options) in
  match bot with
  | None => throw (TypeError "Cannot read property 'type' of undefined")
  | Some bot =>
      (if negb (opt_truthy (type bot)) then record (LogInfo "infer type as telegram")
       else ret tt) ;;;
      record SuperCall ;;;
      super options
  end.

(** [ctx.res.write(chunk)] with what [JSON.stringify] gave: only a string
    can be written. *)
Definition res_write (c : nat) (chunk : option string) : M unit :=
  match chunk with
  | Some s => res_call c (Write s)
  | None => throw (TypeError "The chunk argument must be of type string")
  end.

(** The bodies of the two arrow functions. *)
Definition run_closure (f : Closure) (data : JsValue) : M unit :=
  match f with
  | ResponseCallback c m timer =>
      set_property m "_response" (Value VNull) ;;;
      clearTimeout timer ;;;
      res_write c (stringify (snakeCase data)) ;;;
      res_call c End_
  | TimeoutCallback c m =>
      set_property m "_response" (Value VNull) ;;;
      res_call c End_
  end.

Definition positive_number (q : option Z) : bool :=
  match q with Some n => (n >? 0)%Z | None => false end.

(** The route handler [(ctx) => { ... }] of [_listen].  The timer id the
    response callback closes over is the one [setTimeout] gives three
    statements later: the next free index. *)
Definition handler (options : AppOptions) (c : nat) : M unit :=
  b <- gets (fun w => from_option body VUndefined (ctxs w !! c)) ;;
  record (LogDebug "receive %o" b) ;;;
  match prepare b with
  | None => set_status c 403
  | Some session =>
      meta <- new_session_ref session ;;
      (if positive_number (quickOperation options) then
         set_respond c false ;;;
         res_call c (WriteHead 200 [("Content-Type", "application/json")]) ;;;
         timer <- gets (fun w => length (timers w)) ;;
         update_session meta
           (fun s => KoishiUtils.defineProperty s "$response"
                       (Function (ResponseCallback c meta timer))) ;;;
         setTimeout (TimeoutCallback c meta) (default 0 (quickOperation options)) ;;;
         ret tt
       else ret tt) ;;;
      record (Dispatch meta)
  end.

(** *** The event loop

    What can happen, one at a time: a POST arrives on the route; a listener
    of the host calls a property of a session as a function; a timer comes
    due and runs. *)
Inductive Happening : Type :=
| Post (at_ : Z) (b : JsValue)
| Call (at_ : Z) (meta : nat) (key : string) (data : JsValue)
| Expire (timer : nat).

Definition call_property (meta : nat) (key : string) (data : JsValue) : M unit :=
  slot <- gets (fun w => sessions w !! meta ≫= (fun s => s !! key)) ;;
  match slot with
  | Some (Function f) => run_closure f data
  | _ => throw (TypeError ("session." ++ key ++ " is not a function"))
  end.

Definition expire (timer : nat) : M unit :=
  t <- gets (fun w => timers w !! timer) ;;
  match t with
  | Some t =>
      if armed t then
        set_clock (due t) ;;;
        clearTimeout timer ;;;
        run_closure (callback t) VUndefined
      else ret tt
  | None => ret tt
  end.

Definition happen (options : AppOptions) (h : Happening) : M unit :=
  match h with
  | Post t b => set_clock t ;;; c <- new_ctx_ref b ;; handler options c
  | Call t meta key data => set_clock t ;;; call_property meta key data
  | Expire timer => expire timer
  end.

(** A run of the loop: a throw of one turn ends that turn, not the loop. *)
Fixpoint run (options : AppOptions) (hs : list Happening) (w : World) : World :=
  match hs with
  | [] => w
  | h :: rest => run options rest (snd (happen options h w))
  end.

End Server.

(** What a client has received on a context: the chunks written before the
    response was ended, and whether and when it was ended. *)
Fixpoint written (ops : list (Z * ResOp)) : string :=
  match ops with
  | [] => ""
  | (_, Write s) :: rest => s ++ written rest
  | (_, End_) :: _ => ""
  | (_, WriteHead _ _) :: rest => written rest
  end.

Fixpoint ended_at (ops : list (Z * ResOp)) : option Z :=
  match ops with
  | [] => None
  | (t, End_) :: _ => Some t
  | _ :: rest => ended_at rest
  end.

Fixpoint head_written_at (ops : list (Z * ResOp)) : option Z :=
  match ops with
  | [] => None
  | (t, WriteHead _ _) :: _ => Some t
  | _ :: rest => head_written_at rest
  end.

Definition is_dispatch (e : LogEvent) : bool :=
  match e with Dispatch _ => true | _ => false end.

Definition dispatches (w : World) : nat := length (List.filter is_dispatch (log w)).

End HttpServer.

(** ** Concrete surroundings

    The helpers as modelled above, a host without listeners, and a few
    remote sides, to run the adapter on. *)

Module Model.

Definition utils : Api.Utils :=
  {| Api.snakeCase := KoishiUtils.snakeCase;
     Api.camelCase := KoishiUtils.camelCase;
     Api.parseAll := CQCode.parseAll |}.

Definition host : Api.Host :=
  {| Api.createSession := fun bot type ctxType id message =>
       {| Api.message := message; Api.messageId := VUndefined;
          Api.fields := {[ "messageType" := VStr type;
                           (ctxType ++ "Id") := Api.chat_value id;
                           "selfId" := VNum (Api.selfId bot) ]} |};
     Api.bail := fun session name => ret (false, session);
     Api.emit := fun session name => ret session |}.

(** A remote side that answers every request alike. *)
Definition answering (code : Z) (d : JsValue) : Api.Bot :=
  {| Api.selfId := 10000; Api.ready := true;
     Api._request := Some (fun _ _ _ =>
       Return {| Api.status := "ok"; Api.retcode := code; Api.data := d;
                 Api.echo := None |}) |}.

(** A remote side that cannot be reached. *)
Definition unreachable : Api.Bot :=
  {| Api.selfId := 10000; Api.ready := true;
     Api._request := Some (fun _ _ _ => Throw (Error "connect ECONNREFUSED")) |}.

(** A remote side that refuses the first request and accepts the next. *)
Definition refusing_first : Api.Bot :=
  {| Api.selfId := 10000; Api.ready := true;
     Api._request := Some (fun w _ _ =>
       Return {| Api.status := "ok";
                 Api.retcode := if Nat.eqb (Api.remote_calls w) 0 then 400 else 0;
                 Api.data := VObj [("message_id", VNum 7)];
                 Api.echo := None |}) |}.

Definition sent : JsValue := VObj [("message_id", VNum 42)].

(** A server whose [prepare] accepts objects only, and whose superclass
    constructor does nothing. *)
Definition env : HttpServer.Env :=
  {| HttpServer.snakeCase := KoishiUtils.snakeCase;
     HttpServer.stringify := KoishiUtils.stringify;
     HttpServer.prepare := fun b =>
       match b with
       | VObj fields => Some (HttpServer.Value <$> list_to_map fields)
       | _ => None
       end;
     HttpServer.super := fun _ => ret tt |}.

Definition telegram_bot : HttpServer.BotOptions :=
  {| HttpServer.server := Some "http://127.0.0.1:8080";
     HttpServer.type := Some "telegram"; HttpServer.botSelfId := Some 10000 |}.

Definition untyped_bot : HttpServer.BotOptions :=
  {| HttpServer.server := Some "http://127.0.0.1:8080";
     HttpServer.type := None; HttpServer.botSelfId := Some 10000 |}.

Definition options (bots : list HttpServer.BotOptions) (quick : option Z)
  : HttpServer.AppOptions :=
  {| HttpServer.port := Some 8080; HttpServer.bots := bots;
     HttpServer.url := "http://127.0.0.1:8080/telegram";
     HttpServer.quickOperation := quick |}.

Definition update : JsValue :=
  VObj [("message", VStr "ping"); ("selfId", VNum 10000)].

End Model.

(** ** Vocabulary of the statements *)

Module Props.
Import Api.

Definition is_image (node : CQNode) : bool :=
  match node with
  | Text _ => false
  | Code type _ => String.eqb type "image"
  end.

Definition is_text (node : CQNode) : bool :=
  match node with Text _ => true | Code _ _ => false end.

(** A segment [sendMsg] has no branch for. *)
Definition is_ignored (node : CQNode) : bool :=
  negb (is_text node) && negb (is_image node).

(** The text of the text segments, in order. *)
Fixpoint caption (chain : list CQNode) : string :=
  match chain with
  | [] => ""
  | Text s :: rest => s ++ caption rest
  | Code _ _ :: rest => caption rest
  end.

(** The attributes of the image segments, in order. *)
Fixpoint images (chain : list CQNode) : list (gmap string string) :=
  match chain with
  | [] => []
  | Code type attrs :: rest =>
      if String.eqb type "image" then attrs :: images rest else images rest
  | Text _ :: rest => images rest
  end.

(** Text and images only, each text segment next to an image. *)
Fixpoint texts_adjacent (before : bool) (chain : list CQNode) : bool :=
  match chain with
  | [] => true
  | node :: rest =>
      (is_text node || is_image node)
      && (if is_text node
          then before || match rest with next :: _ => is_image next | [] => false end
          else true)
      && texts_adjacent (is_image node) rest
  end.

(** The chains the two-image property of [sendMsg] speaks of. *)
Definition interleaved_two_images (chain : list CQNode) : bool :=
  Nat.eqb (length (images chain)) 2 && texts_adjacent false chain.

(** How many images wait in the buffer of [sendMsg]: one or none. *)
Definition pending (st : Locals) : nat :=
  if opt_truthy (p_image st) then 1%nat else 0%nat.

(** The image carries a usable [url]. *)
Definition has_url (attrs : gmap string string) : bool :=
  opt_truthy (attrs !! "url").

(** A run of [sendMsg] that enters [_sendPhoto] twice and [_sendMsg] not
    at all. *)
Definition two_photos_no_text `{Utils} (bot : Bot) (chatId : ChatId)
  (message : string) (w : list Event) : Prop :=
  let w' := snd (sendMsg bot chatId message w) in
  photo_calls w' = (photo_calls w + 2)%nat /\ text_calls w' = text_calls w.

Definition two_images_message : string :=
  "[CQ:image,url=http://x/a.png]hi[CQ:image,url=http://x/b.png]".

(** The first image names a [file] and has no [url]. *)
Definition file_image_message : string :=
  "[CQ:image,file=a.png]hi[CQ:image,url=http://x/b.png]".

End Props.

Module ServerProps.
Import HttpServer.

(** [app.options.port] is set. *)
Definition configured_port (o : AppOptions) : bool :=
  match port o with
  | Some p => negb (Z.eqb p 0)
  | None => false
  end.

(** Some entry of [app.options.bots] has a [server]. *)
Definition has_server_bot (o : AppOptions) : bool :=
  existsb (fun bot => opt_truthy (server bot)) (bots o).

(** Some entry of [app.options.bots] has no [type]. *)
Definition has_untyped_bot (o : AppOptions) : bool :=
  existsb (fun bot => negb (opt_truthy (type bot))) (bots o).

(** The world with more lines in its log. *)
Definition logged (w : World) (es : list LogEvent) : World :=
  {| clock := clock w; ctxs := ctxs w; sessions := sessions w;
     timers := timers w; log := (log w ++ es)%list |}.

(** What the constructor logs about the bot it found. *)
Definition inferred (bot : BotOptions) : list LogEvent :=
  if opt_truthy (type bot) then [] else [LogInfo "infer type as telegram"].

(** What a property of a session object holds. *)
Definition property (w : World) (meta : nat) (key : string) : option Slot :=
  sessions w !! meta ≫= (fun s => s !! key).

(** The calls made on the response of a context. *)
Definition response (w : World) (c : nat) : list (Z * ResOp) :=
  from_option res [] (ctxs w !! c).

Definition quick_options : AppOptions :=
  Model.options [Model.telegram_bot] (Some 100).

Definition reply : JsValue := VObj [("reply", VStr "pong"); ("atSender", VBool true)].

(** [JSON.stringify(snakeCase(reply))] *)
Definition reply_text : string :=
  default "" (KoishiUtils.stringify (KoishiUtils.snakeCase reply)).

Definition json_head : ResOp := WriteHead 200 [("Content-Type", "application/json")].

End ServerProps.

(** ** Listening: [_listen] and [__listen] of the server class *)

Module Listen.

(** What [Axios.create({ baseURL })] gives. *)
Record AxiosInstance : Type := {
  baseURL : option string;
}.

(** A bot object, as far as [__listen] reads and writes it: [bot.server],
    [bot.url], [bot.ready], and whether [bot._request] is set. *)
Record BotState : Type := {
  server : option string;
  url : option string;
  ready : bool;
  installed : bool;
}.

(** A GET that went out: the base URL of the instance used, the path, and
    what was passed as second argument. *)
Record Sent : Type := {
  via : option string;
  path : string;
  config : JsValue;
}.

Inductive LogLine : Type :=
| Connected (server : option string).

(** The server object and what it reaches: [this._axios], [this.bots], the
    POST routes of [this.router], the requests that went out, the log. *)
Record World : Type := {
  _axios : option AxiosInstance;
  bots : list BotState;
  routes : list string;
  sent : list Sent;
  log : list LogLine;
}.

Definition M (A : Type) : Type := Async.M World A.

Local Open Scope js_scope.

(** What lies outside: the answer to a GET (the axios response object, or
    a rejection), which may depend on what went out before; and
    [new URL(s).href], which has no value for an invalid URL. *)
Class Net : Type := {
  axios_get : option string -> string -> JsValue -> list Sent -> Completion JsValue;
  href : string -> option string;
}.

(** [this.router.post(path, handler)] of koa-router: it takes the path, or
    throws for a path it cannot compile. *)
Class Router : Type := {
  router_post : string -> Completion unit;
}.

Definition set_bot (i : nat) (f : BotState -> BotState) : M unit :=
  modify (fun w => {| _axios := _axios w; bots := alter f i (bots w);
                      routes := routes w; sent := sent w; log := log w |}).

Definition set_axios (a : AxiosInstance) : M unit :=
  modify (fun w => {| _axios := Some a; bots := bots w; routes := routes w;
                      sent := sent w; log := log w |}).

Definition add_route (p : string) : M unit :=
  modify (fun w => {| _axios := _axios w; bots := bots w;
                      routes := (routes w ++ [p])%list; sent := sent w;
                      log := log w |}).

Definition add_sent (s : Sent) : M unit :=
  modify (fun w => {| _axios := _axios w; bots := bots w; routes := routes w;
                      sent := (sent w ++ [s])%list; log := log w |}).

Definition add_log (l : LogLine) : M unit :=
  modify (fun w => {| _axios := _axios w; bots := bots w; routes := routes w;
                      sent := sent w; log := (log w ++ [l])%list |}).

Definition mark_ready (b : BotState) : BotState :=
  {| server := server b; url := url b; ready := true; installed := installed b |}.

Definition install_request (b : BotState) : BotState :=
  {| server := server b; url := url b; ready := ready b; installed := true |}.

Section Listening.
Context `{Net}.

(** The arrow function [__listen] stores in [bot._request], called: it
    reads [this._axios] when it is called, sends the GET, and gives the
    promise of the [data] of the answer.  A promise is written as the
    completion it settles to; the call itself does not throw. *)
Definition _request (action : string) (params : JsValue) : M (Completion JsValue) :=
  a <- gets _axios ;;
  match a with
  | None => ret (Throw (TypeError "Cannot read property 'get' of undefined"))
  | Some instance =>
      before <- gets sent ;;
      add_sent {| via := baseURL instance; path := action; config := params |} ;;;
      ret (match axios_get (baseURL instance) action params before with
           | Return response => getProp response "data"
           | Throw e => Throw e
           end)
  end.

(** [bot._request(action, params)] on the bot at index [i]. *)
Definition bot_request (i : nat) (action : string) (params : JsValue)
  : M (Completion JsValue) :=
  b <- gets (fun w => bots w !! i) ;;
  match b with
  | Some b =>
      if installed b then _request action params
      else throw (TypeError "bot._request is not a function")
  | None => throw (TypeError "Cannot read property '_request' of undefined")
  end.

(** [__listen(bot)] up to its [await]: everything before the answer of the
    remote side is known. *)
Definition __listen_start (i : nat) : M (Completion JsValue) :=
  b <- gets (fun w => bots w !! i) ;;
  match b with
  | None => throw (TypeError "Cannot set property 'ready' of undefined")
  | Some b =>
      set_bot i mark_ready ;;;
      set_axios {| baseURL := server b |} ;;;
      set_bot i install_request ;;;
      bot_request i "setWebhook" (VObj [("url", from_option VStr VUndefined (url b))])
  end.

(** [__listen(bot)] from its [await] on. *)
Definition __listen_finish (i : nat) (answer : Completion JsValue) : M unit :=
  match answer with
  | Throw e => throw e
  | Return _ =>
      b <- gets (fun w => bots w !! i) ;;
      add_log (Connected (b ≫= server))
  end.

(** [__listen(bot)], run alone. *)
Definition __listen (i : nat) : M unit :=
  answer <- __listen_start i ;;
  __listen_finish i answer.

(** [this.bots.map(bot => this.__listen(bot))]: the calls run one after the
    other, each up to its [await]. *)
Fixpoint start_all (indices : list nat) : M (list (nat * Completion JsValue)) :=
  match indices with
  | [] => ret []
  | i :: rest =>
      answer <- __listen_start i ;;
      answers <- start_all rest ;;
      ret ((i, answer) :: answers)
  end.

(** [await Promise.all(...)]: every call goes on when its answer is there,
    also after another one has failed; the promise of all rejects with the
    first failure.  The answers are taken in the order of the bots. *)
Fixpoint settle_all (answers : list (nat * Completion JsValue)) : M unit :=
  match answers with
  | [] => ret tt
  | (i, answer) :: rest =>
      fun w =>
        match __listen_finish i answer w with
        | (Return _, w1) => settle_all rest w1
        | (Throw e, w1) => (Throw e, snd (settle_all rest w1))
        end
  end.

(** [await Promise.all(this.bots.map(bot => this.__listen(bot)))] *)
Definition listen_bots : M unit :=
  n <- gets (fun w => length (bots w)) ;;
  answers <- start_all (seq 0 n) ;;
  settle_all answers.

Context `{Router}.

(** [_listen()]; the route handler it registers is [HttpServer.handler].
    The route is there once [router.post] has returned. *)
Definition _listen (options_url : string) : M unit :=
  match href options_url with
  | None => throw (TypeError "Invalid URL")
  | Some p =>
      lift (router_post p) ;;;
      add_route p ;;;
      listen_bots
  end.

End Listening.

End Listen.

(** ** More vocabulary, and more surroundings to run on *)

Module MoreProps.
Import Api Props.

(** The photos a trace shows as handed to [_sendPhoto], by url. *)
Fixpoint sent_photos (w : list Event) : list string :=
  match w with
  | [] => []
  | EvSendPhoto _ _ photo :: rest => photo :: sent_photos rest
  | _ :: rest => sent_photos rest
  end.

(** The requests a trace shows, as action and parameters. *)
Fixpoint requests (w : list Event) : list (string * JsValue) :=
  match w with
  | [] => []
  | EvRequest action params :: rest => (action, params) :: requests rest
  | _ :: rest => requests rest
  end.

(** The urls of the image codes that have a non-empty one, in order. *)
Fixpoint usable_urls (chain : list CQNode) : list string :=
  match chain with
  | [] => []
  | Text _ :: rest => usable_urls rest
  | Code type attrs :: rest =>
      if String.eqb type "image" then
        match attrs !! "url" with
        | Some u => if str_truthy u then u :: usable_urls rest else usable_urls rest
        | None => usable_urls rest
        end
      else usable_urls rest
  end.

(** What waits in the buffer of [sendMsg], as a list of urls. *)
Definition buffered (st : Locals) : list string :=
  match p_image st with
  | Some u => if str_truthy u then [u] else []
  | None => []
  end.

(** The last image code of the chain has a non-empty url. *)
Definition last_image_usable (chain : list CQNode) : bool :=
  match last (images chain) with
  | Some attrs => has_url attrs
  | None => false
  end.

End MoreProps.

Module ListenProps.
Import Listen.

(** The registration request of a bot: a GET of [setWebhook] on the bot's
    server, with the bot's url as it is. *)
Definition hook (b : BotState) : Sent :=
  {| via := server b; path := "setWebhook";
     config := VObj [("url", from_option VStr VUndefined (url b))] |}.

(** The bot once [__listen] has started on it. *)
Definition listening (b : BotState) : BotState :=
  {| server := server b; url := url b; ready := true; installed := true |}.

(** What the promise of a request settles to, given the answer to the GET. *)
Definition settled (answer : Completion JsValue) : Completion JsValue :=
  match answer with
  | Return response => getProp response "data"
  | Throw e => Throw e
  end.

End ListenProps.

Module Samples.

(** A host whose [before-send] listener vetoes every message, and records
    that it was asked. *)
Definition vetoing_host : Api.Host :=
  {| Api.createSession := Api.createSession (Host := Model.host);
     Api.bail := fun session name =>
       bind (Api.record (Api.EvHost name (VStr (Api.message session))))
            (fun _ => ret (true, session));
     Api.emit := fun session name => ret session |}.

(** A host whose [before-send] listener rewrites the message. *)
Definition rewriting_host : Api.Host :=
  {| Api.createSession := Api.createSession (Host := Model.host);
     Api.bail := fun session name =>
       ret (false, {| Api.message := "[redacted]";
                      Api.messageId := Api.messageId session;
                      Api.fields := Api.fields session |});
     Api.emit := fun session name => ret session |}.

(** A bot the server has not started to listen for. *)
Definition idle_bot : Api.Bot :=
  {| Api.selfId := 10000; Api.ready := false; Api._request := None |}.

Definition me : JsValue := VObj [("id", VNum 10000); ("first_name", VStr "koishi")].

(** A remote side that answers every GET with the same body, and a URL
    parser that takes what starts with [http]. *)
Definition net (body : JsValue) : Listen.Net :=
  {| Listen.axios_get := fun _ _ _ _ => Return (VObj [("data", body)]);
     Listen.href := fun s => if String.prefix "http" s then Some s else None |}.

(** A remote side that cannot be reached. *)
Definition dead_net : Listen.Net :=
  {| Listen.axios_get := fun _ _ _ _ => Throw (Error "connect ECONNREFUSED");
     Listen.href := fun s => if String.prefix "http" s then Some s else None |}.

(** A router that takes every path. *)
Definition lenient_router : Listen.Router :=
  {| Listen.router_post := fun _ => Return tt |}.

(** Where a path has a colon that no parameter name follows. *)
Fixpoint unnamed_parameter (l : list ascii) (index : nat) : option nat :=
  match l with
  | [] => None
  | c :: rest =>
      if Ascii.eqb c ":"%char then
        match rest with
        | d :: _ =>
            if CQCode.is_word d then unnamed_parameter rest (S index) else Some index
        | [] => Some index
        end
      else unnamed_parameter rest (S index)
  end.

(** A router that, as the path compiler of koa-router does, reads a colon
    as the start of a parameter and refuses one without a name. *)
Definition strict_router : Listen.Router :=
  {| Listen.router_post := fun p =>
       match unnamed_parameter (list_ascii_of_string p) 0 with
       | Some index =>
           Throw (TypeError ("Missing parameter name at "
                             ++ NilZero.string_of_int (Z.to_int (Z.of_nat index))))
       | None => Return tt
       end |}.

Definition bot_on (server : string) : Listen.BotState :=
  {| Listen.server := Some server; Listen.url := Some "http://127.0.0.1:8080/telegram";
     Listen.ready := false; Listen.installed := false |}.

Definition server_of (bots : list Listen.BotState) : Listen.World :=
  {| Listen._axios := None; Listen.bots := bots; Listen.routes := [];
     Listen.sent := []; Listen.log := [] |}.

Definition two_bots : Listen.World :=
  server_of [bot_on "http://a.example"; bot_on "http://b.example"].

(** Text around a code that is no image. *)
Definition mention_message : string := "hi [CQ:at,qq=1]there".

Definition refused : JsValue :=
  VObj [("status", VStr "failed"); ("retcode", VNum (-1)); ("data", VNull)].

End Samples.

(** ** Two facts about strings *)

Module StringFacts.

Lemma append_empty_r (s : string) : (s ++ "")%string = s.
Proof. induction s as [|c s IH]; [reflexivity|]. rewrite <- IH at 2. reflexivity. Qed.

Lemma append_assoc (s1 s2 s3 : string) :
  ((s1 ++ s2) ++ s3)%string = (s1 ++ (s2 ++ s3))%string.
Proof.
  induction s1 as [|c s1 IH]; [reflexivity|].
  change (String c ((s1 ++ s2) ++ s3) = String c (s1 ++ (s2 ++ s3)))%string.
  rewrite IH. reflexivity.
Qed.

End StringFacts.

(** ** Properties of api.ts *)

Module ApiFacts.
Import Api Props.
Local Open Scope js_scope.

Section WithUtils.
Context `{Utils}.

(** *** [get] *)

Lemma get_unfold (bot : Bot) action params silent w :
  get bot action params silent w =
  match request bot action (snakeCase params)
          (w ++ [EvDebugRequest action params])%list with
  | (Throw e, w1) => (Throw e, w1)
  | (Return response, w1) =>
      let w2 := (w1 ++ [EvDebugResponse response])%list in
      if (retcode response =? 0)%Z && negb silent
      then (Return (camelCase (data response)), w2)
      else if (retcode response <? 0)%Z && negb silent
      then (Throw (SenderError params action (retcode response) (selfId bot)), w2)
      else if (retcode response >? 1)%Z
      then (Throw (SenderError params action (retcode response) (selfId bot)), w2)
      else (Return VUndefined, w2)
  end.
Proof.
  unfold get, bind, record, modify. simpl.
  destruct (request bot action (snakeCase params) _) as [[response|e] w1]; [|reflexivity].
  simpl.
  destruct ((retcode response =? 0)%Z && negb silent); [reflexivity|].
  destruct ((retcode response <? 0)%Z && negb silent); [reflexivity|].
  destruct (retcode response >? 1)%Z; reflexivity.
Qed.

(** C1. [get] classifies the response by its retcode: 0 gives the data in
    camelCase unless silent; a negative retcode throws a [SenderError]
    unless silent; a retcode above 1 throws it whatever [silent] is;
    retcode 1 gives [undefined]; and a silent call gives [undefined] for
    retcode 0 and for negative retcodes. *)
Theorem get_classifies_retcode (bot : Bot) action params silent w response w1 :
  request bot action (snakeCase params) (w ++ [EvDebugRequest action params])%list
    = (Return response, w1) ->
  let outcome := fst (get bot action params silent w) in
  let code := retcode response in
  let failure := Throw (SenderError params action code (selfId bot)) in
  (code = 0 -> silent = false -> outcome = Return (camelCase (data response)))
  /\ (code < 0 -> silent = false -> outcome = failure)
  /\ (code > 1 -> outcome = failure)
  /\ (code = 1 -> outcome = Return VUndefined)
  /\ (silent = true -> code <= 0 -> outcome = Return VUndefined).
Proof.
  intros Hreq. cbv zeta. rewrite get_unfold, Hreq. cbv zeta.
  repeat split.
  - intros -> ->. reflexivity.
  - intros Hneg ->. simpl negb. rewrite andb_true_r.
    destruct (Z.eqb_spec (retcode response) 0) as [E|_]; [lia|].
    destruct (Z.ltb_spec (retcode response) 0); [reflexivity | lia].
  - intros Hbig.
    destruct (Z.eqb_spec (retcode response) 0) as [E|_]; [lia|].
    destruct (Z.ltb_spec (retcode response) 0); [lia|].
    simpl. destruct (Z.gtb_spec (retcode response) 1); [reflexivity | lia].
  - intros ->. destruct silent; reflexivity.
  - intros -> Hle. simpl negb. rewrite !andb_false_r.
    destruct (Z.gtb_spec (retcode response) 1); [lia | reflexivity].
Qed.


(** *** What a run adds to the trace *)

Lemma photo_calls_app (w1 w2 : list Event) :
  photo_calls (w1 ++ w2) = (photo_calls w1 + photo_calls w2)%nat.
Proof. unfold photo_calls. rewrite List.filter_app. apply List.length_app. Qed.

Lemma text_calls_app (w1 w2 : list Event) :
  text_calls (w1 ++ w2) = (text_calls w1 + text_calls w2)%nat.
Proof. unfold text_calls. rewrite List.filter_app. apply List.length_app. Qed.

Lemma request_calls (bot : Bot) action params w :
  let w' := snd (request bot action params w) in
  photo_calls w' = photo_calls w /\ text_calls w' = text_calls w.
Proof.
  cbv zeta. unfold request. destruct (_request bot) as [f|]; simpl;
    [|split; reflexivity].
  rewrite photo_calls_app, text_calls_app. cbn. lia.
Qed.

Lemma get_calls (bot : Bot) action params silent w :
  let w' := snd (get bot action params silent w) in
  photo_calls w' = photo_calls w /\ text_calls w' = text_calls w.
Proof.
  cbv zeta. rewrite get_unfold.
  pose proof (request_calls bot action (snakeCase params)
                (w ++ [EvDebugRequest action params])) as Hreq.
  cbv zeta in Hreq. rewrite photo_calls_app, text_calls_app in Hreq. cbn in Hreq.
  destruct (request bot action (snakeCase params) _) as [[response|e] w1];
    simpl in Hreq |- *; [|lia].
  assert (photo_calls (w1 ++ [EvDebugResponse response]) = photo_calls w
          /\ text_calls (w1 ++ [EvDebugResponse response]) = text_calls w) as Hw2.
  { rewrite photo_calls_app, text_calls_app. cbn. lia. }
  destruct ((retcode response =? 0)%Z && negb silent); [exact Hw2|].
  destruct ((retcode response <? 0)%Z && negb silent); [exact Hw2|].
  destruct (retcode response >? 1)%Z; exact Hw2.
Qed.

(** A photo send is one call of [_sendPhoto], no call of [_sendMsg], and
    resolves to [undefined] when it resolves. *)
Lemma _sendPhoto_calls (bot : Bot) chatId cap photo w :
  let r := _sendPhoto bot chatId cap photo w in
  photo_calls (snd r) = S (photo_calls w)
  /\ text_calls (snd r) = text_calls w
  /\ (forall v, fst r = Return v -> v = VUndefined).
Proof.
  cbv zeta. unfold _sendPhoto, bind, record, modify, ret. simpl.
  set (w0 := (w ++ [EvSendPhoto chatId cap photo])%list).
  assert (photo_calls w0 = S (photo_calls w) /\ text_calls w0 = text_calls w) as Hw0.
  { unfold w0. rewrite photo_calls_app, text_calls_app. cbn. lia. }
  destruct (str_truthy photo); simpl.
  - match goal with |- context [get ?b ?a ?p ?s w0] =>
      pose proof (get_calls b a p s w0) as Hget;
      destruct (get b a p s w0) as [[v|e] w1] end;
      simpl in *; (split; [lia | split; [lia | congruence]]).
  - split; [tauto | split; [tauto | congruence]].
Qed.

Lemma _sendMsg_calls (bot : Bot) chatId message w :
  let r := _sendMsg bot chatId message w in
  photo_calls (snd r) = photo_calls w
  /\ text_calls (snd r) = S (text_calls w)
  /\ (forall v, fst r = Return v -> v = VUndefined).
Proof.
  cbv zeta. unfold _sendMsg, bind, record, modify, ret. simpl.
  set (w0 := (w ++ [EvSendMsg chatId message])%list).
  assert (photo_calls w0 = photo_calls w /\ text_calls w0 = S (text_calls w)) as Hw0.
  { unfold w0. rewrite photo_calls_app, text_calls_app. cbn. lia. }
  destruct (str_truthy message); simpl.
  - match goal with |- context [get ?b ?a ?p ?s w0] =>
      pose proof (get_calls b a p s w0) as Hget;
      destruct (get b a p s w0) as [[v|e] w1] end;
      simpl in *; (split; [lia | split; [lia | congruence]]).
  - split; [tauto | split; [tauto | congruence]].
Qed.

Lemma flush_calls (bot : Bot) chatId st w :
  let r := flush bot chatId st w in
  photo_calls (snd r) = S (photo_calls w)
  /\ text_calls (snd r) = text_calls w
  /\ (forall st', fst r = Return st' ->
        result st' = VUndefined /\ p_message st' = "" /\ p_image st' = Some "").
Proof.
  cbv zeta. unfold flush, bind.
  pose proof (_sendPhoto_calls bot chatId (p_message st) (default "" (p_image st)) w)
    as (Hp & Ht & Hv).
  destruct (_sendPhoto bot chatId _ _ w) as [[v|e] w1]; simpl in *.
  - split; [exact Hp | split; [exact Ht|]].
    intros st' [= <-]. simpl. rewrite (Hv v eq_refl). repeat split.
  - split; [exact Hp | split; [exact Ht|]]. discriminate.
Qed.


(** *** The loop of [sendMsg] *)

(** Text goes to the caption and leaves the rest alone. *)
Lemma sendMsg_node_text (bot : Bot) chatId s st w :
  sendMsg_node bot chatId (Text s) st w =
  (Return {| p_message := p_message st ++ s; p_image := p_image st;
             result := result st |}, w).
Proof. reflexivity. Qed.

(** An image met while another one waits: the waiting one is sent with the
    caption gathered so far, then the new one waits with an empty caption. *)
Lemma sendMsg_node_image_buffered (bot : Bot) chatId attrs st w :
  opt_truthy (p_image st) = true ->
  sendMsg_node bot chatId (Code "image" attrs) st w =
  match _sendPhoto bot chatId (p_message st) (default "" (p_image st)) w with
  | (Return r, w1) =>
      (Return {| p_message := ""; p_image := attrs !! "url"; result := r |}, w1)
  | (Throw e, w1) => (Throw e, w1)
  end.
Proof.
  intros Hbuf. unfold sendMsg_node.
  change (String.eqb "image" "image") with true. cbv iota.
  unfold bind, flush, bind. rewrite Hbuf.
  destruct (_sendPhoto bot chatId _ _ w) as [[r|e] w1]; reflexivity.
Qed.

(** The first image only fills the buffer. *)
Lemma sendMsg_node_image_first (bot : Bot) chatId attrs st w :
  opt_truthy (p_image st) = false ->
  sendMsg_node bot chatId (Code "image" attrs) st w =
  (Return {| p_message := p_message st; p_image := attrs !! "url";
             result := result st |}, w).
Proof.
  intros Hbuf. unfold sendMsg_node.
  change (String.eqb "image" "image") with true. cbv iota.
  unfold bind. rewrite Hbuf. reflexivity.
Qed.

Lemma sendMsg_node_ignored (bot : Bot) chatId node st w :
  is_ignored node = true -> sendMsg_node bot chatId node st w = (Return st, w).
Proof.
  destruct node as [s|type attrs]; [discriminate|].
  unfold is_ignored, is_image, sendMsg_node. simpl.
  destruct (String.eqb type "image"); [discriminate | reflexivity].
Qed.

Lemma sendMsg_loop_cons (bot : Bot) chatId node rest st w :
  sendMsg_loop bot chatId (node :: rest) st w =
  match sendMsg_node bot chatId node st w with
  | (Return st1, w1) => sendMsg_loop bot chatId rest st1 w1
  | (Throw e, w1) => (Throw e, w1)
  end.
Proof. reflexivity. Qed.

Lemma sendMsg_loop_filter (bot : Bot) chatId chain :
  forall st w,
    sendMsg_loop bot chatId chain st w =
    sendMsg_loop bot chatId (List.filter (fun n => negb (is_ignored n)) chain) st w.
Proof.
  induction chain as [|node rest IH]; intros st w; [reflexivity|].
  simpl List.filter. destruct (is_ignored node) eqn:Hig; simpl negb; cbv iota.
  - rewrite sendMsg_loop_cons, (sendMsg_node_ignored _ _ _ _ _ Hig). apply IH.
  - rewrite !sendMsg_loop_cons.
    destruct (sendMsg_node bot chatId node st w) as [[st1|e] w1]; [apply IH | reflexivity].
Qed.

Lemma pending_le_1 (st : Locals) : (pending st <= 1)%nat.
Proof. unfold pending. destruct (opt_truthy (p_image st)); lia. Qed.

(** One turn of the loop: what it sends, and what it leaves in [result]
    and in the buffer. *)
Lemma sendMsg_node_calls (bot : Bot) chatId node st w st1 w1 :
  sendMsg_node bot chatId node st w = (Return st1, w1) ->
  text_calls w1 = text_calls w
  /\ (result st = VUndefined -> result st1 = VUndefined)
  /\ (forallb has_url (images [node]) = true ->
      (photo_calls w1 + pending st1 =
         photo_calls w + pending st + length (images [node]))%nat
      /\ (pending st <= pending st1)%nat
      /\ (images [node] <> [] -> pending st1 = 1%nat)).
Proof.
  destruct node as [s|type attrs].
  - rewrite sendMsg_node_text. intros [= <- <-]. simpl.
    split; [reflexivity | split; [tauto|]]. intros _.
    unfold pending. simpl. split; [lia | split; [lia | congruence]].
  - unfold sendMsg_node. simpl images.
    destruct (String.eqb type "image").
    + unfold bind.
      destruct (opt_truthy (p_image st)) eqn:Hbuf.
      * pose proof (flush_calls bot chatId st w) as (Hp & Ht & Hst).
        destruct (flush bot chatId st w) as [[st0|e] w0]; simpl in *; [|discriminate].
        destruct (Hst st0 eq_refl) as (Hr & Hm & Hi).
        intros [= <- <-]. simpl.
        split; [exact Ht | split; [intros _; exact Hr|]].
        rewrite andb_true_r. unfold has_url, pending. simpl. rewrite Hbuf.
        intros ->. split; [lia | split; [lia | reflexivity]].
      * intros [= <- <-]. simpl.
        split; [reflexivity | split; [tauto|]].
        rewrite andb_true_r. unfold has_url, pending. simpl. rewrite Hbuf.
        intros ->. split; [lia | split; [lia | reflexivity]].
    + intros [= <- <-]. simpl.
      split; [reflexivity | split; [tauto|]]. intros _.
      split; [lia | split; [lia | congruence]].
Qed.

Lemma images_cons (node : CQNode) (rest : list CQNode) :
  images (node :: rest) = (images [node] ++ images rest)%list.
Proof.
  destruct node as [s|type attrs]; simpl; [reflexivity|].
  destruct (String.eqb type "image"); reflexivity.
Qed.

(** The whole traversal, when it resolves: no text send; [result] is still
    [undefined]; and, when every image has a url, each image met was
    either sent or waits in the buffer. *)
Lemma sendMsg_loop_calls (bot : Bot) chatId chain :
  forall st w st' w',
    sendMsg_loop bot chatId chain st w = (Return st', w') ->
    text_calls w' = text_calls w
    /\ (result st = VUndefined -> result st' = VUndefined)
    /\ (forallb has_url (images chain) = true ->
        (photo_calls w' + pending st' =
           photo_calls w + pending st + length (images chain))%nat
        /\ (pending st <= pending st')%nat
        /\ (images chain <> [] -> pending st' = 1%nat)).
Proof.
  induction chain as [|node rest IH]; intros st w st' w'.
  - intros [= <- <-]. simpl. split; [reflexivity | split; [tauto|]].
    intros _. split; [lia | split; [lia | congruence]].
  - rewrite sendMsg_loop_cons.
    destruct (sendMsg_node bot chatId node st w) as [[st1|e] w1] eqn:Hnode;
      [|discriminate].
    intros Hrest.
    destruct (sendMsg_node_calls _ _ _ _ _ _ _ Hnode) as (Ht1 & Hr1 & Hp1).
    destruct (IH _ _ _ _ Hrest) as (Ht2 & Hr2 & Hp2).
    split; [congruence | split; [tauto|]].
    rewrite images_cons, forallb_app. intros [Hu1 Hu2]%andb_prop.
    destruct (Hp1 Hu1) as (Hc1 & Hm1 & Hb1). destruct (Hp2 Hu2) as (Hc2 & Hm2 & Hb2).
    rewrite List.length_app. split; [lia | split; [lia|]].
    intros Hne. destruct (images rest) as [|a l] eqn:Hrest_images.
    + rewrite app_nil_r in Hne. specialize (Hb1 Hne).
      pose proof (pending_le_1 st'). lia.
    + apply Hb2. discriminate.
Qed.



Lemma sendMsg_loop_app (bot : Bot) chatId l1 l2 :
  forall st w,
    sendMsg_loop bot chatId (l1 ++ l2) st w =
    match sendMsg_loop bot chatId l1 st w with
    | (Return st1, w1) => sendMsg_loop bot chatId l2 st1 w1
    | (Throw e, w1) => (Throw e, w1)
    end.
Proof.
  induction l1 as [|node rest IH]; intros st w; [reflexivity|].
  change ((node :: rest) ++ l2)%list with (node :: (rest ++ l2))%list.
  rewrite !sendMsg_loop_cons.
  destruct (sendMsg_node bot chatId node st w) as [[st1|e] w1]; [apply IH | reflexivity].
Qed.

(** A stretch of the chain without images only lengthens the caption. *)
Lemma sendMsg_loop_texts (bot : Bot) chatId l :
  images l = [] ->
  forall st w,
    sendMsg_loop bot chatId l st w =
    (Return {| p_message := p_message st ++ caption l; p_image := p_image st;
               result := result st |}, w).
Proof.
  induction l as [|node rest IH]; intros Himg st w.
  - cbn [sendMsg_loop caption]. rewrite StringFacts.append_empty_r.
    destruct st; reflexivity.
  - rewrite sendMsg_loop_cons. destruct node as [s|type attrs]; cbn [images] in Himg.
    + rewrite sendMsg_node_text, (IH Himg). cbn [p_message p_image result caption].
      rewrite StringFacts.append_assoc. reflexivity.
    + destruct (String.eqb type "image") eqn:E; [discriminate|].
      unfold sendMsg_node. rewrite E. unfold ret. cbn [caption]. apply (IH Himg).
Qed.

Lemma images_split (chain : list CQNode) attrs others :
  images chain = attrs :: others ->
  exists pre post,
    chain = (pre ++ Code "image" attrs :: post)%list
    /\ images pre = [] /\ images post = others.
Proof.
  induction chain as [|node rest IH]; [discriminate|].
  destruct node as [s|type a]; cbn [images].
  - intros (pre & post & -> & Hpre & Hpost)%IH.
    exists (Text s :: pre), post. repeat split; assumption.
  - destruct (String.eqb type "image") eqn:E.
    + apply String.eqb_eq in E as ->. intros [= -> <-].
      exists [], rest. repeat split.
    + intros (pre & post & -> & Hpre & Hpost)%IH.
      exists (Code type a :: pre), post. cbn [images]. rewrite E.
      repeat split; assumption.
Qed.

(** [sendMsg] on two images with urls: one photo send for the first image,
    captioned with the text met before the second image, then one for the
    second image, captioned with the text after it, then the read of
    [result.messageId]. *)
Lemma sendMsg_chain_two_images (bot : Bot) chatId pre mid post a1 a2 u1 u2 w :
  images pre = [] -> images mid = [] -> images post = [] ->
  a1 !! "url" = Some u1 -> str_truthy u1 = true ->
  a2 !! "url" = Some u2 -> str_truthy u2 = true ->
  sendMsg_chain bot chatId
    (pre ++ Code "image" a1 :: mid ++ Code "image" a2 :: post) w =
  (_sendPhoto bot chatId (caption pre ++ caption mid) u1 ;;;
   r <- _sendPhoto bot chatId (caption post) u2 ;;
   lift (getProp r "messageId")) w.
Proof.
  intros Hpre Hmid Hpost Ha1 Hu1 Ha2 Hu2.
  unfold sendMsg_chain, bind.
  rewrite sendMsg_loop_app, (sendMsg_loop_texts _ _ _ Hpre).
  rewrite sendMsg_loop_cons, sendMsg_node_image_first by reflexivity.
  rewrite sendMsg_loop_app, (sendMsg_loop_texts _ _ _ Hmid).
  cbn [p_message p_image result locals0].
  rewrite sendMsg_loop_cons, sendMsg_node_image_buffered
    by (cbn [p_image]; rewrite Ha1; exact Hu1).
  cbn [p_message p_image result]. rewrite Ha1, Ha2. cbn [from_option]. unfold id.
  change ("" ++ caption pre)%string with (caption pre).
  destruct (_sendPhoto bot chatId (caption pre ++ caption mid) u1 w)
    as [[r|e] w1]; [|reflexivity].
  rewrite (sendMsg_loop_texts _ _ _ Hpost). cbn [p_message p_image result].
  unfold sendMsg_finish, flush, bind. cbn [p_message p_image result opt_truthy].
  rewrite Hu2. cbn [from_option]. unfold id.
  change ("" ++ caption post)%string with (caption post).
  destruct (_sendPhoto bot chatId (caption post) u2 w1) as [[r2|e2] w2]; reflexivity.
Qed.

Lemma has_url_inv (attrs : gmap string string) :
  has_url attrs = true -> exists u, attrs !! "url" = Some u /\ str_truthy u = true.
Proof.
  unfold has_url. destruct (attrs !! "url") as [u|]; [|discriminate].
  intros Hu. exists u. split; [reflexivity | exact Hu].
Qed.

(** *** After the loop *)

Lemma sendMsg_finish_calls (bot : Bot) chatId st w :
  let r := sendMsg_finish bot chatId st w in
  (pending st = 1%nat ->
     photo_calls (snd r) = S (photo_calls w) /\ text_calls (snd r) = text_calls w)
  /\ (result st = VUndefined -> is_return (fst r) = false).
Proof.
  cbv zeta. unfold sendMsg_finish, bind, pending.
  destruct (opt_truthy (p_image st)) eqn:Hbuf.
  - pose proof (flush_calls bot chatId st w) as (Hp & Ht & Hst).
    destruct (flush bot chatId st w) as [[st1|e] w1]; simpl in *.
    + destruct (Hst st1 eq_refl) as (Hr & _). rewrite Hr. simpl. tauto.
    + tauto.
  - split; [discriminate|]. intros Hres.
    destruct (str_truthy (p_message st)).
    + pose proof (_sendMsg_calls bot chatId (p_message st) w) as (_ & _ & Hv).
      destruct (_sendMsg bot chatId (p_message st) w) as [[v|e] w1]; simpl in *;
        [|reflexivity].
      rewrite (Hv v eq_refl). reflexivity.
    + simpl. rewrite Hres. reflexivity.
Qed.

(** [sendMsg] never resolves: whatever was sent, [result] is [undefined]
    when [result.messageId] is read. *)
Lemma sendMsg_never_resolves (bot : Bot) chatId message w :
  is_return (fst (sendMsg bot chatId message w)) = false.
Proof.
  unfold sendMsg, sendMsg_chain, bind.
  destruct (sendMsg_loop bot chatId (parseAll message) locals0 w)
    as [[st|e] w1] eqn:Hloop; [|reflexivity].
  destruct (sendMsg_loop_calls _ _ _ _ _ _ _ Hloop) as (_ & Hres & _).
  apply sendMsg_finish_calls, Hres. reflexivity.
Qed.

(** C2, amended. A message parsed into text interleaved with exactly two
    images, every text next to an image, makes [sendMsg] call [_sendPhoto]
    exactly twice and [_sendMsg] never, provided both images carry a
    non-empty url and the send made during the traversal does not throw.
    The run is: the first image is sent with the text met before the second
    image as its caption, then the second image with the text after it. *)
Theorem sendMsg_two_images (bot : Bot) chatId message w :
  interleaved_two_images (parseAll message) = true ->
  forallb has_url (images (parseAll message)) = true ->
  is_return (fst (sendMsg_loop bot chatId (parseAll message) locals0 w)) = true ->
  two_photos_no_text bot chatId message w
  /\ exists pre mid post a1 a2 u1 u2,
       parseAll message = (pre ++ Code "image" a1 :: mid ++ Code "image" a2 :: post)%list
       /\ a1 !! "url" = Some u1 /\ a2 !! "url" = Some u2
       /\ sendMsg bot chatId message w =
          (_sendPhoto bot chatId (caption pre ++ caption mid) u1 ;;;
           r <- _sendPhoto bot chatId (caption post) u2 ;;
           lift (getProp r "messageId")) w.
Proof.
  intros [Htwo _]%andb_prop Hurl Hret.
  apply Nat.eqb_eq in Htwo. split.
  - unfold two_photos_no_text, sendMsg, sendMsg_chain, bind. cbv zeta.
    destruct (sendMsg_loop bot chatId (parseAll message) locals0 w)
      as [[st|e] w1] eqn:Hloop; [clear Hret | discriminate].
    destruct (sendMsg_loop_calls _ _ _ _ _ _ _ Hloop) as (Ht & _ & Hp).
    destruct (Hp Hurl) as (Hc & _ & Hb).
    assert (pending st = 1%nat) as Hpend.
    { apply Hb. intros E. rewrite E in Htwo. discriminate. }
    destruct (sendMsg_finish_calls bot chatId st w1)
      as ((Hp2 & Ht2)%(fun f => f Hpend) & _).
    rewrite Htwo, Hpend in Hc. change (pending locals0) with 0%nat in Hc.
    split; [lia | congruence].
  - destruct (images (parseAll message)) as [|a1 [|a2 [|a3 l]]] eqn:Himg;
      try discriminate.
    cbn [forallb] in Hurl. rewrite andb_true_r in Hurl.
    apply andb_prop in Hurl as [(u1 & Ha1 & Hu1)%has_url_inv (u2 & Ha2 & Hu2)%has_url_inv].
    destruct (images_split _ _ _ Himg) as (pre & rest & Hchain & Hpre & Hrest).
    destruct (images_split _ _ _ Hrest) as (mid & post & -> & Hmid & Hpost).
    exists pre, mid, post, a1, a2, u1, u2.
    split; [exact Hchain|]. split; [exact Ha1|]. split; [exact Ha2|].
    unfold sendMsg. rewrite Hchain.
    apply sendMsg_chain_two_images; assumption.
Qed.

(** C10. A segment that is neither text nor an image code is dropped: the
    turn of the loop that meets it changes neither the caption, nor the
    buffered image, nor the trace, and [sendMsg] does on the message what
    it does on the chain without such segments. *)
Theorem sendMsg_ignores_other_codes (bot : Bot) chatId message w :
  (forall node st w0,
      is_ignored node = true ->
      sendMsg_node bot chatId node st w0 = (Return st, w0))
  /\ sendMsg bot chatId message w =
     sendMsg_chain bot chatId
       (List.filter (fun n => negb (is_ignored n)) (parseAll message)) w.
Proof.
  split.
  - intros node st w0. apply sendMsg_node_ignored.
  - unfold sendMsg, sendMsg_chain, bind. rewrite <- sendMsg_loop_filter. reflexivity.
Qed.

(** C8. On a ready bot [getStatusCode] never throws: it resolves to [GOOD]
    when the probe [get('getMe')] resolves and to [NET_ERROR] when the probe
    throws, whatever it throws. *)
Theorem getStatusCode_catches (bot : Bot) w :
  ready bot = true ->
  let probe := get bot "getMe" (VObj []) false w in
  getStatusCode bot w =
  (Return (if is_return (fst probe) then GOOD else NET_ERROR), snd probe).
Proof.
  intros Hready. cbv zeta. unfold getStatusCode, try_catch, bind. rewrite Hready.
  change (negb true) with false. cbv beta iota.
  destruct (get bot "getMe" (VObj []) false w) as [[v|e] w1]; reflexivity.
Qed.

Section WithHost.
Context `{Host}.

(** C6. With an empty message [sendGroupMsg] and [sendPrivateMsg] resolve
    to [undefined] and leave the trace as it was: no remote call, no
    session, no listener. *)
Theorem send_empty_message (bot : Bot) id w :
  sendGroupMsg bot id "" w = (Return VUndefined, w)
  /\ sendPrivateMsg bot id "" w = (Return VUndefined, w).
Proof. split; reflexivity. Qed.

End WithHost.

End WithUtils.

Lemma get_classifies_retcode_witness :
  (fst (get (H := Model.utils) (Model.answering 0 Model.sent) "send_message"
          (VObj [("chatId", VNum 5)]) false [])
     = Return (VObj [("messageId", VNum 42)]))
  /\ (fst (get (H := Model.utils) (Model.answering (-1) VNull) "send_message"
             (VObj [("chatId", VNum 5)]) false [])
        = Throw (SenderError (VObj [("chatId", VNum 5)]) "send_message" (-1) 10000))
  /\ (fst (get (H := Model.utils) (Model.answering 2 VNull) "send_message"
             (VObj [("chatId", VNum 5)]) true [])
        = Throw (SenderError (VObj [("chatId", VNum 5)]) "send_message" 2 10000))
  /\ (fst (get (H := Model.utils) (Model.answering 1 Model.sent) "send_message"
             (VObj [("chatId", VNum 5)]) false [])
        = Return VUndefined)
  /\ (fst (get (H := Model.utils) (Model.answering (-1) VNull) "send_message"
             (VObj [("chatId", VNum 5)]) true [])
        = Return VUndefined).
Proof.
  split; [|split; [|split; [|split]]].
  - exact (proj1 (get_classifies_retcode (H := Model.utils)
             (Model.answering 0 Model.sent) "send_message"
             (VObj [("chatId", VNum 5)]) false [] _ _ eq_refl) eq_refl eq_refl).
  - exact (proj1 (proj2 (get_classifies_retcode (H := Model.utils)
             (Model.answering (-1) VNull) "send_message"
             (VObj [("chatId", VNum 5)]) false [] _ _ eq_refl)) eq_refl eq_refl).
  - exact (proj1 (proj2 (proj2 (get_classifies_retcode (H := Model.utils)
             (Model.answering 2 VNull) "send_message"
             (VObj [("chatId", VNum 5)]) true [] _ _ eq_refl))) eq_refl).
  - exact (proj1 (proj2 (proj2 (proj2 (get_classifies_retcode (H := Model.utils)
             (Model.answering 1 Model.sent) "send_message"
             (VObj [("chatId", VNum 5)]) false [] _ _ eq_refl)))) eq_refl).
  - refine (proj2 (proj2 (proj2 (proj2 (get_classifies_retcode (H := Model.utils)
             (Model.answering (-1) VNull) "send_message"
             (VObj [("chatId", VNum 5)]) true [] _ _ eq_refl)))) eq_refl _).
    discriminate.
Defined.

(** *** Runs on concrete messages *)

Lemma sendMsg_two_images_witness :
  interleaved_two_images (CQCode.parseAll two_images_message) = true
  /\ two_photos_no_text (H := Model.utils) (Model.answering 0 Model.sent)
       (ChatNum 5) two_images_message [].
Proof.
  split; [vm_compute; reflexivity|].
  apply (proj1 (sendMsg_two_images (H := Model.utils) (Model.answering 0 Model.sent)
                  (ChatNum 5) two_images_message []
                  ltac:(vm_compute; reflexivity) ltac:(vm_compute; reflexivity)
                  ltac:(vm_compute; reflexivity))).
Defined.

(** C2, as stated, fails: two images of which the first has no url give one
    photo send. *)
Lemma sendMsg_two_images_one_photo :
  interleaved_two_images (CQCode.parseAll file_image_message) = true
  /\ photo_calls (snd (sendMsg (H := Model.utils) (Model.answering 0 Model.sent)
                         (ChatNum 5) file_image_message [])) = 1%nat
  /\ ~ two_photos_no_text (H := Model.utils) (Model.answering 0 Model.sent)
         (ChatNum 5) file_image_message [].
Proof.
  split; [vm_compute; reflexivity|].
  split; [vm_compute; reflexivity|].
  intros [Hphoto _]. vm_compute in Hphoto. discriminate.
Qed.

(** Nor are there two photo sends when the remote side refuses the first. *)
Lemma sendMsg_two_images_first_refused :
  interleaved_two_images (CQCode.parseAll two_images_message) = true
  /\ forallb has_url (images (CQCode.parseAll two_images_message)) = true
  /\ photo_calls (snd (sendMsg (H := Model.utils) Model.refusing_first
                         (ChatNum 5) two_images_message [])) = 1%nat.
Proof. repeat split. Qed.

(** C3 fails on the code: the remote side accepts the message and answers
    with its id, and [sendMsg] throws a [TypeError] instead of returning
    42; and so it is for every message and every remote side: [sendMsg]
    never resolves. *)
Theorem sendMsg_throws_after_send :
  sendMsg (H := Model.utils) (Model.answering 0 Model.sent) (ChatNum 5) "hello" []
  = (Throw (TypeError "Cannot read property 'messageId' of undefined"),
     [EvSendMsg (ChatNum 5) "hello";
      EvDebugRequest "send_message"
        (VObj [("chatId", VNum 5); ("message", VStr "hello")]);
      EvRequest "send_message"
        (VObj [("chat_id", VNum 5); ("message", VStr "hello")]);
      EvDebugResponse {| status := "ok"; retcode := 0; data := Model.sent;
                         echo := None |}])
  /\ forall (utils : Utils) bot chatId message w,
       is_return (fst (sendMsg bot chatId message w)) = false.
Proof.
  split; [vm_compute; reflexivity|].
  intros utils bot chatId message w. apply sendMsg_never_resolves.
Qed.

(** The callers inherit it: [sendGroupMsg] with a message that is sent
    throws too, and the [send] event is never emitted. *)
Lemma sendGroupMsg_throws_after_send :
  fst (sendGroupMsg (H := Model.utils) (H0 := Model.host)
         (Model.answering 0 Model.sent) (ChatNum 5) "hello" [])
  = Throw (TypeError "Cannot read property 'messageId' of undefined").
Proof. vm_compute. reflexivity. Qed.

Lemma sendMsg_ignores_other_codes_witness :
  is_ignored (Code "at" {[ "qq" := "123" ]}) = true
  /\ sendMsg_node (H := Model.utils) (Model.answering 0 Model.sent) (ChatNum 5)
       (Code "at" {[ "qq" := "123" ]}) locals0 [] = (Return locals0, []).
Proof.
  split; [reflexivity|].
  apply (proj1 (sendMsg_ignores_other_codes (H := Model.utils)
                  (Model.answering 0 Model.sent) (ChatNum 5) "" [])).
  reflexivity.
Defined.

Lemma getStatusCode_catches_witness :
  ready Model.unreachable = true
  /\ fst (getStatusCode (H := Model.utils) Model.unreachable []) = Return NET_ERROR
  /\ fst (getStatusCode (H := Model.utils) (Model.answering 0 Model.sent) [])
     = Return GOOD.
Proof.
  split; [reflexivity|]. split.
  - rewrite (getStatusCode_catches (H := Model.utils) Model.unreachable [] eq_refl).
    reflexivity.
  - rewrite (getStatusCode_catches (H := Model.utils)
               (Model.answering 0 Model.sent) [] eq_refl).
    reflexivity.
Defined.

End ApiFacts.

(** ** Properties of the webhook server *)

Module ServerFacts.
Import HttpServer ServerProps.
Local Open Scope js_scope.
Local Open Scope list_scope.

Section WithEnv.
Context `{Env}.

(** *** The constructor *)

Lemma find_server_bot (options : AppOptions) :
  has_server_bot options = false <->
  List.find (fun bot => opt_truthy (server bot)) (bots options) = None.
Proof.
  unfold has_server_bot. induction (bots options) as [|bot rest IH]; simpl; [tauto|].
  destruct (opt_truthy (server bot)); simpl; [split; discriminate | exact IH].
Qed.

Lemma assert_port (options : AppOptions) :
  KoishiUtils.assertProperty (options_object options) "port" =
  if configured_port options
  then Return (from_option VNum VUndefined (port options))
  else Throw (Error "missing configuration 'port'").
Proof.
  unfold KoishiUtils.assertProperty, configured_port, options_object. simpl.
  destruct (port options) as [p|]; simpl; [|reflexivity].
  destruct (Z.eqb p 0); reflexivity.
Qed.

Lemma constructor_unfold (options : AppOptions) w :
  constructor options w =
  if configured_port options then
    match List.find (fun bot => opt_truthy (server bot)) (bots options) with
    | None => (Throw (TypeError "Cannot read property 'type' of undefined"), w)
    | Some bot => super options (logged w (inferred bot ++ [SuperCall]))
    end
  else (Throw (Error "missing configuration 'port'"), w).
Proof.
  unfold constructor, bind, lift. rewrite assert_port.
  destruct (configured_port options); [|reflexivity].
  destruct (List.find _ (bots options)) as [bot|]; [|reflexivity].
  unfold inferred, logged, record, modify, ret.
  destruct (opt_truthy (type bot)); simpl; [reflexivity|].
  rewrite <- app_assoc. reflexivity.
Qed.

(** C7, amended. The constructor checks that a port is configured and that
    some bot entry has a server: when either fails it throws and the
    superclass constructor is not reached; when both hold it goes on to the
    superclass constructor, with or without a type on the bot it found. *)
Theorem constructor_validates (options : AppOptions) w :
  let r := constructor options w in
  (configured_port options = false ->
     r = (Throw (Error "missing configuration 'port'"), w))
  /\ (has_server_bot options = false -> is_return (fst r) = false /\ snd r = w)
  /\ (configured_port options = true -> has_server_bot options = true ->
      exists bot,
        List.find (fun bot => opt_truthy (server bot)) (bots options) = Some bot
        /\ r = super options (logged w (inferred bot ++ [SuperCall]))).
Proof.
  cbv zeta. rewrite constructor_unfold. split; [|split].
  - intros ->. reflexivity.
  - intros Hnone%find_server_bot. rewrite Hnone.
    destruct (configured_port options); split; reflexivity.
  - intros -> Hsome.
    destruct (List.find _ (bots options)) as [bot|] eqn:Hfind.
    + exists bot. split; reflexivity.
    + apply find_server_bot in Hfind. congruence.
Qed.

(** C9, amended. With a port configured: if no bot entry has a truthy
    server the constructor throws a [TypeError] and nothing else happens,
    the superclass constructor is not called; if some entry has one, the
    superclass constructor is called, whether or not the entry found has a
    type. *)
Theorem constructor_needs_server_bot (options : AppOptions) w :
  configured_port options = true ->
  (has_server_bot options = false ->
     constructor options w =
     (Throw (TypeError "Cannot read property 'type' of undefined"), w))
  /\ (forall bot,
        List.find (fun bot => opt_truthy (server bot)) (bots options) = Some bot ->
        constructor options w = super options (logged w (inferred bot ++ [SuperCall]))).
Proof.
  intros Hport. rewrite constructor_unfold, Hport. split.
  - intros Hnone%find_server_bot. rewrite Hnone. reflexivity.
  - intros bot ->. reflexivity.
Qed.


(** *** The route handler *)

Lemma alter_last {A} (f : A -> A) (l : list A) (x : A) :
  alter f (length l) (l ++ [x]) = l ++ [f x].
Proof.
  rewrite <- (Nat.add_0_r (length l)) at 1. rewrite alter_app_r. reflexivity.
Qed.

Lemma lookup_last {A} (l : list A) (x : A) : (l ++ [x]) !! length l = Some x.
Proof. apply list_lookup_middle. reflexivity. Qed.

(** What a POST leaves behind, case by case. *)
Lemma post_unfold (options : AppOptions) t b w :
  happen options (Post t b) w =
  let c := length (ctxs w) in
  let meta := length (sessions w) in
  let timer := length (timers w) in
  (Return tt,
   match prepare b with
   | None =>
       {| clock := t;
          ctxs := ctxs w ++ [{| body := b; status := 403; respond := true;
                                res := [] |}];
          sessions := sessions w; timers := timers w;
          log := log w ++ [LogDebug "receive %o" b] |}
   | Some session =>
       if positive_number (quickOperation options) then
         {| clock := t;
            ctxs := ctxs w ++
              [{| body := b; status := 404; respond := false;
                  res := [(t, WriteHead 200 [("Content-Type", "application/json")])] |}];
            sessions := sessions w ++
              [<["$response" := Function (ResponseCallback c meta timer)]> session];
            timers := timers w ++
              [{| due := t + default 0 (quickOperation options);
                  callback := TimeoutCallback c meta; armed := true |}];
            log := log w ++ [LogDebug "receive %o" b; Dispatch meta] |}
       else
         {| clock := t;
            ctxs := ctxs w ++ [new_ctx b];
            sessions := sessions w ++ [session]; timers := timers w;
            log := log w ++ [LogDebug "receive %o" b; Dispatch meta] |}
   end).
Proof.
  cbv zeta. unfold happen, handler, bind, set_clock, new_ctx_ref, gets, modify, record.
  cbn [clock ctxs sessions timers log]. rewrite lookup_last. cbn [from_option body new_ctx].
  destruct (prepare b) as [session|].
  - unfold new_session_ref. cbn [clock ctxs sessions timers log].
    destruct (positive_number (quickOperation options)).
    + unfold set_respond, res_call, update_ctx, update_session, setTimeout, bind,
        gets, modify, ret, KoishiUtils.defineProperty.
      cbn [clock ctxs sessions timers log].
      rewrite !alter_last.
      cbn [body status respond res new_ctx]. rewrite <- (List.app_assoc (log w)). reflexivity.
    + unfold ret, record, modify. cbn [clock ctxs sessions timers log].
      rewrite <- (List.app_assoc (log w)). reflexivity.
  - unfold set_status, update_ctx, modify. cbn [clock ctxs sessions timers log].
    rewrite alter_last. reflexivity.
Qed.

(** C5. A POST whose body does not parse into a session sets the status of
    its context to 403 and dispatches nothing; a POST whose body parses is
    dispatched exactly once, with or without quick replies configured, and
    what is dispatched is the session [prepare] gave: the new object holds
    that session, with the callback added as [$response] under quick
    replies and nothing added otherwise. *)
Theorem post_dispatch (options : AppOptions) t b w :
  let w' := snd (happen options (Post t b) w) in
  match prepare b with
  | None =>
      status <$> ctxs w' !! length (ctxs w) = Some 403
      /\ dispatches w' = dispatches w
      /\ sessions w' = sessions w
  | Some session =>
      dispatches w' = S (dispatches w)
      /\ log w' = log w ++ [LogDebug "receive %o" b; Dispatch (length (sessions w))]
      /\ sessions w' !! length (sessions w)
         = Some (if positive_number (quickOperation options)
                 then <["$response" :=
                          Function (ResponseCallback (length (ctxs w))
                                      (length (sessions w)) (length (timers w)))]>
                        session
                 else session)
  end.
Proof.
  cbv zeta. rewrite post_unfold. cbv zeta. cbn [snd].
  destruct (prepare b) as [session|].
  - assert (forall w1 : World,
               log w1 = log w ++ [LogDebug "receive %o" b; Dispatch (length (sessions w))] ->
               dispatches w1 = S (dispatches w)) as Hcount.
    { intros w1 E. unfold dispatches. rewrite E, List.filter_app, List.length_app.
      cbn. lia. }
    destruct (positive_number (quickOperation options)); cbn [log sessions];
      (split; [apply Hcount; reflexivity | split; [reflexivity|]]);
      apply lookup_last.
  - cbn [ctxs log sessions]. rewrite lookup_last. split; [reflexivity|].
    split; [|reflexivity].
    unfold dispatches. cbn [log]. rewrite List.filter_app, List.length_app. cbn. lia.
Qed.


(** *** Quick replies *)


Ltac step_world :=
  unfold call_property, expire, run_closure, res_write, res_call, set_property,
    clearTimeout, set_clock, update_ctx, update_session, bind, gets, modify, ret;
  cbn [clock ctxs sessions timers log fst snd].

(** The world after a POST under quick replies. *)
Lemma quick_post (options : AppOptions) T t b session w :
  quickOperation options = Some T -> (T > 0)%Z ->
  prepare b = Some session ->
  snd (happen options (Post t b) w) =
  {| clock := t;
     ctxs := ctxs w ++
       [{| body := b; status := 404; respond := false; res := [(t, json_head)] |}];
     sessions := sessions w ++
       [<["$response" := Function (ResponseCallback (length (ctxs w))
                                     (length (sessions w)) (length (timers w)))]>
          session];
     timers := timers w ++
       [{| due := t + T; callback := TimeoutCallback (length (ctxs w))
                                       (length (sessions w));
           armed := true |}];
     log := log w ++ [LogDebug "receive %o" b; Dispatch (length (sessions w))] |}.
Proof.
  intros Hquick HT Hprep. rewrite post_unfold. cbv zeta. rewrite Hprep, Hquick.
  unfold positive_number. destruct (Z.gtb_spec T 0) as [_|]; [reflexivity | lia].
Qed.

(** Under quick replies, with a timeout that Node takes as given, the
    handler answers at once with the headers, takes the response away from
    Koa, attaches the callback and arms the timer, due after the timeout. *)
Lemma quick_reply_setup (options : AppOptions) T t b session w :
  quickOperation options = Some T -> (T > 0)%Z -> (T <= TIMEOUT_MAX)%Z ->
  prepare b = Some session ->
  let c := length (ctxs w) in
  let meta := length (sessions w) in
  let timer := length (timers w) in
  let w1 := run options [Post t b] w in
  response w1 c = [(t, json_head)]
  /\ head_written_at (response w1 c) = Some t
  /\ respond <$> ctxs w1 !! c = Some false
  /\ property w1 meta "$response" = Some (Function (ResponseCallback c meta timer))
  /\ timers w1 !! timer =
     Some {| due := t + T; callback := TimeoutCallback c meta; armed := true |}.
Proof.
  intros Hquick HT _ Hprep. cbv zeta. cbn [run].
  rewrite (quick_post options T t b session w Hquick HT Hprep).
  unfold response, property. cbn [ctxs sessions timers]. rewrite !lookup_last.
  cbn [from_option res mbind option_bind fmap option_fmap option_map respond
         head_written_at json_head].
  repeat split. apply lookup_insert_eq.
Qed.

(** The world after the callback was then called. *)
Lemma quick_answer (options : AppOptions) T t t1 b session data text w :
  quickOperation options = Some T -> (T > 0)%Z ->
  prepare b = Some session ->
  stringify (snakeCase data) = Some text ->
  run options [Post t b; Call t1 (length (sessions w)) "$response" data] w =
  {| clock := t1;
     ctxs := ctxs w ++
       [{| body := b; status := 404; respond := false;
           res := [(t, json_head); (t1, Write text); (t1, End_)] |}];
     sessions := sessions w ++
       [<["_response" := Value VNull]>
          (<["$response" := Function (ResponseCallback (length (ctxs w))
                                        (length (sessions w)) (length (timers w)))]>
             session)];
     timers := timers w ++
       [{| due := t + T; callback := TimeoutCallback (length (ctxs w))
                                       (length (sessions w));
           armed := false |}];
     log := log w ++ [LogDebug "receive %o" b; Dispatch (length (sessions w))] |}.
Proof.
  intros Hquick HT Hprep Htext.
  cbn [run]. rewrite (quick_post options T t b session w Hquick HT Hprep).
  unfold happen. step_world.
  rewrite lookup_last. cbn [mbind option_bind]. rewrite lookup_insert_eq.
  step_world. rewrite Htext. step_world.
  rewrite !alter_last. reflexivity.
Qed.

(** The world after the timer came due instead. *)
Lemma quick_expiry (options : AppOptions) T t b session w :
  quickOperation options = Some T -> (T > 0)%Z ->
  prepare b = Some session ->
  run options [Post t b; Expire (length (timers w))] w =
  {| clock := t + T;
     ctxs := ctxs w ++
       [{| body := b; status := 404; respond := false;
           res := [(t, json_head); (t + T, End_)] |}];
     sessions := sessions w ++
       [<["_response" := Value VNull]>
          (<["$response" := Function (ResponseCallback (length (ctxs w))
                                        (length (sessions w)) (length (timers w)))]>
             session)];
     timers := timers w ++
       [{| due := t + T; callback := TimeoutCallback (length (ctxs w))
                                       (length (sessions w));
           armed := false |}];
     log := log w ++ [LogDebug "receive %o" b; Dispatch (length (sessions w))] |}.
Proof.
  intros Hquick HT Hprep.
  cbn [run]. rewrite (quick_post options T t b session w Hquick HT Hprep).
  unfold happen. step_world.
  rewrite lookup_last. cbn [armed due callback]. step_world.
  rewrite !alter_last. reflexivity.
Qed.

(** A listener that calls the callback before the timer is due: the body
    of the response is the serialized payload, the response is ended, and
    the timer is cleared, so that its expiry changes nothing. *)
Lemma quick_reply_answered (options : AppOptions) T t t1 b session data text w :
  quickOperation options = Some T -> (T > 0)%Z ->
  prepare b = Some session ->
  stringify (snakeCase data) = Some text ->
  let c := length (ctxs w) in
  let meta := length (sessions w) in
  let timer := length (timers w) in
  let w1 := run options [Post t b; Call t1 meta "$response" data] w in
  response w1 c = [(t, json_head); (t1, Write text); (t1, End_)]
  /\ written (response w1 c) = text
  /\ armed <$> timers w1 !! timer = Some false
  /\ run options [Expire timer] w1 = w1.
Proof.
  intros Hquick HT Hprep Htext. cbv zeta.
  rewrite (quick_answer options T t t1 b session data text w Hquick HT Hprep Htext).
  unfold response. cbn [ctxs timers]. rewrite !lookup_last.
  cbn [from_option res fmap option_fmap option_map armed written].
  split; [reflexivity|]. split; [apply StringFacts.append_empty_r|].
  split; [reflexivity|].
  cbn [run]. unfold happen. step_world. rewrite lookup_last. reflexivity.
Qed.

(** No listener answers, and the timeout is one that Node takes as given:
    when the timer comes due the response is ended, with nothing written,
    at the time of the POST plus the timeout.  The callback is still on the
    session as [$response]; what was set to [null] is the property
    [_response]. *)
Lemma quick_reply_timeout (options : AppOptions) T t b session w :
  quickOperation options = Some T -> (T > 0)%Z -> (T <= TIMEOUT_MAX)%Z ->
  prepare b = Some session ->
  let c := length (ctxs w) in
  let meta := length (sessions w) in
  let timer := length (timers w) in
  let w1 := run options [Post t b; Expire timer] w in
  response w1 c = [(t, json_head); ((t + T)%Z, End_)]
  /\ written (response w1 c) = ""
  /\ ended_at (response w1 c) = Some (t + T)%Z
  /\ property w1 meta "$response" = Some (Function (ResponseCallback c meta timer))
  /\ property w1 meta "_response" = Some (Value VNull).
Proof.
  intros Hquick HT _ Hprep. cbv zeta.
  rewrite (quick_expiry options T t b session w Hquick HT Hprep).
  unfold response, property. cbn [ctxs sessions]. rewrite !lookup_last.
  cbn [from_option res mbind option_bind].
  split; [reflexivity|]. split; [reflexivity|]. split; [reflexivity|].
  split.
  - rewrite lookup_insert_ne by discriminate. apply lookup_insert_eq.
  - apply lookup_insert_eq.
Qed.

End WithEnv.

Lemma constructor_validates_witness :
  configured_port (Model.options [] None) = true
  /\ has_server_bot (Model.options [] None) = false
  /\ is_return (fst (constructor (H := Model.env) (Model.options [] None) world0))
     = false
  /\ has_server_bot (Model.options [Model.untyped_bot] None) = true
  /\ constructor (H := Model.env) (Model.options [Model.untyped_bot] None) world0
     = (Return tt, logged world0 [LogInfo "infer type as telegram"; SuperCall]).
Proof.
  split; [reflexivity|]. split; [reflexivity|]. split.
  - exact (proj1 (proj1 (proj2 (constructor_validates (H := Model.env)
                                  (Model.options [] None) world0)) eq_refl)).
  - split; [reflexivity|].
    destruct (proj2 (proj2 (constructor_validates (H := Model.env)
                              (Model.options [Model.untyped_bot] None) world0))
                eq_refl eq_refl) as (bot & Hfind & Hrun).
    injection Hfind as <-. exact Hrun.
Defined.

(** C7, as stated, fails: every bot entry has its type configured, and the
    constructor goes through. *)
Lemma constructor_accepts_typed_bot :
  has_untyped_bot (Model.options [Model.telegram_bot] None) = false
  /\ constructor (H := Model.env) (Model.options [Model.telegram_bot] None) world0
     = (Return tt, logged world0 [SuperCall]).
Proof. split; reflexivity. Qed.

Lemma constructor_needs_server_bot_witness :
  configured_port (Model.options [Model.telegram_bot] None) = true
  /\ constructor (H := Model.env) (Model.options [] None) world0
     = (Throw (TypeError "Cannot read property 'type' of undefined"), world0)
  /\ constructor (H := Model.env) (Model.options [Model.telegram_bot] None) world0
     = (Return tt, logged world0 [SuperCall]).
Proof.
  split; [reflexivity|]. split.
  - exact (proj1 (constructor_needs_server_bot (H := Model.env)
                    (Model.options [] None) world0 eq_refl) eq_refl).
  - exact (proj2 (constructor_needs_server_bot (H := Model.env)
                    (Model.options [Model.telegram_bot] None) world0 eq_refl)
             Model.telegram_bot eq_refl).
Defined.

(** C9, as stated, fails: without a port the constructor throws a plain
    [Error], not a [TypeError], when no bot has a server, and does not
    reach the superclass constructor when one has. *)
Lemma constructor_without_port :
  let no_port bots :=
    {| port := None; bots := bots; url := "http://127.0.0.1:8080/telegram";
       quickOperation := None |} in
  has_server_bot (no_port []) = false
  /\ constructor (H := Model.env) (no_port []) world0
     = (Throw (Error "missing configuration 'port'"), world0)
  /\ has_server_bot (no_port [Model.telegram_bot]) = true
  /\ constructor (H := Model.env) (no_port [Model.telegram_bot]) world0
     = (Throw (Error "missing configuration 'port'"), world0).
Proof. repeat split. Qed.

Lemma quick_reply_answered_witness :
  quickOperation quick_options = Some 100%Z
  /\ prepare (Env := Model.env) Model.update <> None
  /\ written (response (run (H := Model.env) quick_options
                          [Post 0 Model.update; Call 40 0 "$response" reply] world0) 0)
     = reply_text.
Proof.
  split; [reflexivity|]. split; [discriminate|].
  exact (proj1 (proj2 (quick_reply_answered (H := Model.env) quick_options 100 0 40
                         Model.update _ reply reply_text world0
                         eq_refl eq_refl eq_refl eq_refl))).
Defined.

Lemma quick_reply_timeout_witness :
  quickOperation quick_options = Some 100%Z
  /\ (100 <= TIMEOUT_MAX)%Z
  /\ ended_at (response (run (H := Model.env) quick_options
                           [Post 0 Model.update; Expire 0] world0) 0)
     = Some 100%Z.
Proof.
  assert (100 <= TIMEOUT_MAX)%Z as Hmax by (vm_compute; discriminate).
  split; [reflexivity|]. split; [exact Hmax|].
  exact (proj1 (proj2 (proj2 (quick_reply_timeout (H := Model.env) quick_options 100 0
                                Model.update _ world0 eq_refl eq_refl Hmax
                                eq_refl)))).
Defined.

(** C4 fails on the code.  Quick replies with a timeout of 100, a POST at
    time 0, no answer: the timer ends the response at 100 with nothing
    written, but the callback is still attached to the session as
    [$response] (the timer set [_response] to [null]), and calling it at
    150 writes to the ended response and ends it again.  Nor is the
    callback gone after its first call: a second call writes a second
    body. *)
Theorem quick_reply_callback_not_cleared :
  let expired :=
    run (H := Model.env) quick_options [Post 0 Model.update; Expire 0] world0 in
  let late :=
    run (H := Model.env) quick_options
      [Post 0 Model.update; Expire 0; Call 150 0 "$response" reply] world0 in
  let twice :=
    run (H := Model.env) quick_options
      [Post 0 Model.update; Call 10 0 "$response" reply;
       Call 20 0 "$response" reply] world0 in
  response expired 0 = [(0%Z, json_head); (100%Z, End_)]
  /\ property expired 0 "$response" = Some (Function (ResponseCallback 0 0 0))
  /\ property expired 0 "_response" = Some (Value VNull)
  /\ response late 0 =
     [(0%Z, json_head); (100%Z, End_); (150%Z, Write reply_text); (150%Z, End_)]
  /\ response twice 0 =
     [(0%Z, json_head); (10%Z, Write reply_text); (10%Z, End_);
      (20%Z, Write reply_text); (20%Z, End_)].
Proof. vm_compute. repeat split. Qed.

(** The property the [Session] interface declares, [_response], never
    holds the callback: a listener that calls it gets a [TypeError]. *)
Lemma declared_hook_is_not_callable :
  fst (happen (H := Model.env) quick_options (Call 10 0 "_response" reply)
         (run (H := Model.env) quick_options [Post 0 Model.update] world0))
  = Throw (TypeError "session._response is not a function").
Proof. vm_compute. reflexivity. Qed.

End ServerFacts.

(** ** More properties of api.ts *)

Module ApiMore.
Import Api Props MoreProps.
Local Open Scope js_scope.

Section WithUtils.
Context `{Utils}.

(** *** [get] and its callers *)

Lemma requests_app (w1 w2 : list Event) :
  requests (w1 ++ w2)%list = (requests w1 ++ requests w2)%list.
Proof.
  induction w1 as [|e w1 IH]; [reflexivity|].
  destruct e; cbn [app requests]; rewrite ?IH; reflexivity.
Qed.

(** X1. One call of [get] on a bot that has its [_request] is one remote
    request, for the action as given and the parameters in snake case,
    whatever the remote side answers and whatever [get] makes of it. *)
Theorem get_sends_one_request (bot : Bot) action params silent f w :
  _request bot = Some f ->
  requests (snd (get bot action params silent w))
  = (requests w ++ [(action, snakeCase params)])%list.
Proof.
  intros Hf. rewrite ApiFacts.get_unfold. unfold request. rewrite Hf.
  assert (requests ((w ++ [EvDebugRequest action params])
                      ++ [EvRequest action (snakeCase params)])
          = (requests w ++ [(action, snakeCase params)])%list) as Hsent.
  { rewrite !requests_app. cbn [requests]. rewrite app_nil_r. reflexivity. }
  destruct (f _ action (snakeCase params)) as [response|e]; [|exact Hsent].
  cbv zeta.
  assert (forall c : Completion JsValue,
             requests (snd (c, ((w ++ [EvDebugRequest action params])
                                  ++ [EvRequest action (snakeCase params)])
                                 ++ [EvDebugResponse response])%list)
             = (requests w ++ [(action, snakeCase params)])%list) as Hall.
  { intros c. cbn [snd]. rewrite requests_app, Hsent. cbn [requests].
    apply app_nil_r. }
  destruct ((retcode response =? 0)%Z && negb silent); [apply Hall|].
  destruct ((retcode response <? 0)%Z && negb silent); [apply Hall|].
  destruct (retcode response >? 1)%Z; apply Hall.
Qed.

(** X2. On a bot without [_request] (the server is not listening for it),
    [get] throws a [TypeError] and nothing goes out. *)
Theorem get_without_request (bot : Bot) action params silent w :
  _request bot = None ->
  get bot action params silent w
  = (Throw (TypeError "this._request is not a function"),
     (w ++ [EvDebugRequest action params])%list).
Proof.
  intros Hnone. rewrite ApiFacts.get_unfold. unfold request. rewrite Hnone.
  reflexivity.
Qed.

(** X3. A request that rejects makes [get] throw what it rejected with:
    [silent] does not hide a failure of the transport. *)
Theorem get_passes_rejection (bot : Bot) action params silent f e w :
  _request bot = Some f ->
  f (w ++ [EvDebugRequest action params])%list action (snakeCase params) = Throw e ->
  fst (get bot action params silent w) = Throw e.
Proof.
  intros Hf Hrej. rewrite ApiFacts.get_unfold. unfold request. rewrite Hf, Hrej.
  reflexivity.
Qed.

(** X4. A silent [get] never gives data: when it resolves, it resolves to
    [undefined]. *)
Theorem silent_get_gives_nothing (bot : Bot) action params w :
  match fst (get bot action params true w) with
  | Return v => v = VUndefined
  | Throw _ => True
  end.
Proof.
  rewrite ApiFacts.get_unfold.
  destruct (request bot action (snakeCase params) _) as [[response|e] w1];
    [|exact I].
  cbv zeta. cbn [negb]. rewrite !andb_false_r.
  destruct (retcode response >? 1)%Z; [exact I | reflexivity].
Qed.

(** X5. [getSelfId] gives the [id] of the answer, in camel case, when the
    remote side answers with retcode 0, and throws a [TypeError] when it
    answers with retcode 1: there is nothing to take the [id] from. *)
Theorem getSelfId_by_retcode (bot : Bot) w response w1 :
  request bot "getMe" (snakeCase (VObj [])) (w ++ [EvDebugRequest "getMe" (VObj [])])%list
    = (Return response, w1) ->
  (retcode response = 0%Z ->
     fst (getSelfId bot w) = getProp (camelCase (data response)) "id")
  /\ (retcode response = 1%Z ->
      fst (getSelfId bot w)
      = Throw (TypeError "Cannot read property 'id' of undefined")).
Proof.
  intros Hreq. unfold getSelfId, bind, lift.
  rewrite ApiFacts.get_unfold, Hreq. cbv zeta. split; intros ->; reflexivity.
Qed.

(** X6. [getStatusCode] never throws and reports one of [GOOD],
    [BOT_IDLE] and [NET_ERROR]; it reports [BOT_IDLE] exactly for a bot
    that is not ready, and then without probing: the trace stays as it
    is. *)
Theorem getStatusCode_total (bot : Bot) w :
  exists code,
    fst (getStatusCode bot w) = Return code
    /\ (code = GOOD \/ code = BOT_IDLE \/ code = NET_ERROR)
    /\ (code = BOT_IDLE <-> ready bot = false)
    /\ (ready bot = false -> snd (getStatusCode bot w) = w).
Proof.
  unfold getStatusCode, try_catch, bind. destruct (ready bot); cbn [negb].
  - destruct (get bot "getMe" (VObj []) false w) as [[v|e] w1].
    + exists GOOD. repeat split; auto; discriminate.
    + exists NET_ERROR. repeat split; auto; discriminate.
  - exists BOT_IDLE. repeat split; auto.
Qed.

(** X7. On a ready bot whose probe is answered with a whole-number
    retcode [n], the status follows [n]: [GOOD] for 0 and 1, [NET_ERROR]
    for every other whole number, although the remote side was reached. *)
Theorem getStatusCode_by_retcode (bot : Bot) w response w1 (n : Z) :
  ready bot = true ->
  request bot "getMe" (snakeCase (VObj [])) (w ++ [EvDebugRequest "getMe" (VObj [])])%list
    = (Return response, w1) ->
  retcode response = n ->
  fst (getStatusCode bot w)
  = Return (if (n =? 0)%Z || (n =? 1)%Z then GOOD else NET_ERROR).
Proof.
  intros Hready Hreq <-. unfold getStatusCode, try_catch, bind. rewrite Hready.
  change (negb true) with false. cbv beta iota.
  rewrite ApiFacts.get_unfold, Hreq. cbv zeta. cbn [negb]. rewrite !andb_true_r.
  destruct (Z.eqb_spec (retcode response) 0) as [->|Hne0]; [reflexivity|].
  destruct (Z.ltb_spec (retcode response) 0) as [Hneg|Hpos].
  - destruct (Z.eqb_spec (retcode response) 1); [lia | reflexivity].
  - destruct (Z.gtb_spec (retcode response) 1) as [Hbig|Hsmall].
    + destruct (Z.eqb_spec (retcode response) 1); [lia | reflexivity].
    + destruct (Z.eqb_spec (retcode response) 1); [reflexivity | lia].
Qed.

(** *** The methods [defineSync] makes *)





(** *** What [sendMsg] sends *)

Lemma sent_photos_app (w1 w2 : list Event) :
  sent_photos (w1 ++ w2)%list = (sent_photos w1 ++ sent_photos w2)%list.
Proof.
  induction w1 as [|e w1 IH]; [reflexivity|].
  destruct e; cbn [app sent_photos]; rewrite ?IH; reflexivity.
Qed.

Lemma get_sent_photos (bot : Bot) action params silent w :
  sent_photos (snd (get bot action params silent w)) = sent_photos w.
Proof.
  rewrite ApiFacts.get_unfold. unfold request.
  assert (sent_photos (w ++ [EvDebugRequest action params]) = sent_photos w) as H0.
  { rewrite sent_photos_app. apply app_nil_r. }
  destruct (_request bot) as [f|]; [|exact H0].
  assert (sent_photos ((w ++ [EvDebugRequest action params])
                         ++ [EvRequest action (snakeCase params)]) = sent_photos w) as H1.
  { rewrite sent_photos_app, H0. apply app_nil_r. }
  destruct (f _ action (snakeCase params)) as [response|e]; [|exact H1].
  cbv zeta.
  assert (forall c : Completion JsValue,
             sent_photos (snd (c, ((w ++ [EvDebugRequest action params])
                                     ++ [EvRequest action (snakeCase params)])
                                    ++ [EvDebugResponse response])%list)
             = sent_photos w) as Hall.
  { intros c. cbn [snd]. rewrite sent_photos_app, H1. apply app_nil_r. }
  destruct ((retcode response =? 0)%Z && negb silent); [apply Hall|].
  destruct ((retcode response <? 0)%Z && negb silent); [apply Hall|].
  destruct (retcode response >? 1)%Z; apply Hall.
Qed.

Lemma _sendPhoto_sent (bot : Bot) chatId cap photo w :
  sent_photos (snd (_sendPhoto bot chatId cap photo w))
  = (sent_photos w ++ [photo])%list.
Proof.
  unfold _sendPhoto, bind, record, modify, ret. cbn [fst snd].
  assert (sent_photos (w ++ [EvSendPhoto chatId cap photo])
          = (sent_photos w ++ [photo])%list) as H0.
  { rewrite sent_photos_app. reflexivity. }
  destruct (str_truthy photo); cbn [negb]; [|exact H0].
  match goal with |- context [get ?b ?a ?p ?s ?w0] =>
    pose proof (get_sent_photos b a p s w0) as Hget;
    destruct (get b a p s w0) as [[v|e] w1] end;
    cbn [snd] in *; rewrite Hget; exact H0.
Qed.

Lemma _sendMsg_sent (bot : Bot) chatId message w :
  sent_photos (snd (_sendMsg bot chatId message w)) = sent_photos w.
Proof.
  unfold _sendMsg, bind, record, modify, ret. cbn [fst snd].
  assert (sent_photos (w ++ [EvSendMsg chatId message]) = sent_photos w) as H0.
  { rewrite sent_photos_app. apply app_nil_r. }
  destruct (str_truthy message); cbn [negb]; [|exact H0].
  match goal with |- context [get ?b ?a ?p ?s ?w0] =>
    pose proof (get_sent_photos b a p s w0) as Hget;
    destruct (get b a p s w0) as [[v|e] w1] end;
    cbn [snd] in *; rewrite Hget; exact H0.
Qed.

Lemma buffered_truthy (st : Locals) :
  opt_truthy (p_image st) = true -> buffered st = [default "" (p_image st)].
Proof.
  unfold buffered, opt_truthy. destruct (p_image st) as [u|]; [|discriminate].
  intros ->. reflexivity.
Qed.

Lemma buffered_falsy (st : Locals) :
  opt_truthy (p_image st) = false -> buffered st = [].
Proof.
  unfold buffered, opt_truthy. destruct (p_image st) as [u|]; [|reflexivity].
  intros ->. reflexivity.
Qed.

Lemma flush_sent (bot : Bot) chatId st w :
  opt_truthy (p_image st) = true ->
  sent_photos (snd (flush bot chatId st w)) = (sent_photos w ++ buffered st)%list
  /\ (forall st1, fst (flush bot chatId st w) = Return st1 -> buffered st1 = []).
Proof.
  intros Hbuf. unfold flush, bind. rewrite (buffered_truthy st Hbuf).
  pose proof (_sendPhoto_sent bot chatId (p_message st) (default "" (p_image st)) w)
    as Hsent.
  destruct (_sendPhoto bot chatId _ _ w) as [[r|e] w1]; cbn [fst snd] in *.
  - split; [exact Hsent|]. intros st1 [= <-]. reflexivity.
  - split; [exact Hsent | discriminate].
Qed.

(** One turn of the loop and the photos.  What it sends is the start of
    what waited followed by the url of the node; when it resolves, the rest
    of that is what waits now. *)
Lemma sendMsg_node_sent (bot : Bot) chatId node st w :
  exists d,
    sent_photos (snd (sendMsg_node bot chatId node st w)) = (sent_photos w ++ d)%list
    /\ match fst (sendMsg_node bot chatId node st w) with
       | Return st1 => (d ++ buffered st1 = buffered st ++ usable_urls [node])%list
       | Throw _ => d `prefix_of` (buffered st ++ usable_urls [node])%list
       end.
Proof.
  destruct node as [s|type attrs].
  - rewrite ApiFacts.sendMsg_node_text. exists []. cbn [fst snd usable_urls].
    rewrite !app_nil_r. split; reflexivity.
  - unfold sendMsg_node. cbn [usable_urls].
    destruct (String.eqb type "image").
    + unfold bind. destruct (opt_truthy (p_image st)) eqn:Hbuf.
      * destruct (flush_sent bot chatId st w Hbuf) as (Hsent & Hempty).
        exists (buffered st).
        destruct (flush bot chatId st w) as [[st0|e] w0]; cbn [fst snd] in *.
        -- unfold ret. cbn [fst snd]. split; [exact Hsent|]. f_equal.
        -- split; [exact Hsent|]. eexists. reflexivity.
      * exists []. unfold ret. cbn [fst snd]. rewrite app_nil_r.
        split; [reflexivity|]. rewrite (buffered_falsy st Hbuf). reflexivity.
    + exists []. unfold ret. cbn [fst snd]. rewrite !app_nil_r. split; reflexivity.
Qed.

Lemma usable_urls_cons (node : CQNode) (rest : list CQNode) :
  usable_urls (node :: rest) = (usable_urls [node] ++ usable_urls rest)%list.
Proof.
  destruct node as [s|type attrs]; cbn [usable_urls]; [reflexivity|].
  destruct (String.eqb type "image"); [|reflexivity].
  destruct (attrs !! "url") as [u|]; [destruct (str_truthy u)|]; reflexivity.
Qed.

Lemma sendMsg_loop_sent (bot : Bot) chatId chain :
  forall st w,
  exists d,
    sent_photos (snd (sendMsg_loop bot chatId chain st w)) = (sent_photos w ++ d)%list
    /\ match fst (sendMsg_loop bot chatId chain st w) with
       | Return st' => (d ++ buffered st' = buffered st ++ usable_urls chain)%list
       | Throw _ => d `prefix_of` (buffered st ++ usable_urls chain)%list
       end.
Proof.
  induction chain as [|node rest IH]; intros st w.
  - exists []. cbn. rewrite !app_nil_r. split; reflexivity.
  - rewrite ApiFacts.sendMsg_loop_cons, usable_urls_cons.
    destruct (sendMsg_node_sent bot chatId node st w) as (d1 & Hs1 & Hd1).
    destruct (sendMsg_node bot chatId node st w) as [[st1|e] w1]; cbn [fst snd] in *.
    + destruct (IH st1 w1) as (d2 & Hs2 & Hd2).
      exists (d1 ++ d2)%list. split; [rewrite Hs2, Hs1, app_assoc; reflexivity|].
      destruct (fst (sendMsg_loop bot chatId rest st1 w1)) as [st'|e].
      * rewrite <- app_assoc, Hd2, !app_assoc, Hd1. reflexivity.
      * destruct Hd2 as (k & Hk). exists k.
        rewrite <- app_assoc, <- Hk, !app_assoc, Hd1. reflexivity.
    + exists d1. split; [exact Hs1|].
      destruct Hd1 as (k & Hk). exists (k ++ usable_urls rest)%list.
      rewrite !app_assoc, Hk. reflexivity.
Qed.

Lemma sendMsg_finish_sent (bot : Bot) chatId st w :
  sent_photos (snd (sendMsg_finish bot chatId st w))
  = (sent_photos w ++ buffered st)%list.
Proof.
  unfold sendMsg_finish, bind. destruct (opt_truthy (p_image st)) eqn:Hbuf.
  - destruct (flush_sent bot chatId st w Hbuf) as (Hsent & _).
    destruct (flush bot chatId st w) as [[st1|e] w1]; cbn [fst snd] in *;
      [|exact Hsent].
    unfold lift. cbn [snd]. exact Hsent.
  - rewrite (buffered_falsy st Hbuf), app_nil_r.
    destruct (str_truthy (p_message st)); [|reflexivity].
    pose proof (_sendMsg_sent bot chatId (p_message st) w) as Hsent.
    destruct (_sendMsg bot chatId (p_message st) w) as [[r|e] w1]; cbn [fst snd] in *;
      exact Hsent.
Qed.

(** X9. The photos [sendMsg] hands to [_sendPhoto] are the non-empty urls
    of the image codes of the message, in their order: all of them when
    the traversal of the message does not throw, and the first ones, up
    to the send that threw, when it does.  An image code without a url is
    never sent. *)
Theorem sendMsg_sends_usable_urls (bot : Bot) chatId message w :
  let w' := snd (sendMsg bot chatId message w) in
  (exists d, sent_photos w' = (sent_photos w ++ d)%list
             /\ d `prefix_of` usable_urls (parseAll message))
  /\ (is_return (fst (sendMsg_loop bot chatId (parseAll message) locals0 w)) = true ->
      sent_photos w' = (sent_photos w ++ usable_urls (parseAll message))%list).
Proof.
  cbv zeta. unfold sendMsg, sendMsg_chain, bind.
  destruct (sendMsg_loop_sent bot chatId (parseAll message) locals0 w)
    as (d & Hs & Hd).
  destruct (sendMsg_loop bot chatId (parseAll message) locals0 w) as [[st|e] w1];
    cbn [fst snd] in *.
  - change (buffered locals0) with (@nil string) in Hd. cbn [app] in Hd.
    assert (sent_photos (snd (sendMsg_finish bot chatId st w1))
            = (sent_photos w ++ usable_urls (parseAll message))%list) as Hall.
    { rewrite sendMsg_finish_sent, Hs, <- app_assoc, Hd. reflexivity. }
    split; [|intros _; exact Hall].
    exists (usable_urls (parseAll message)). split; [exact Hall | reflexivity].
  - split; [|discriminate]. exists d. split; [exact Hs | exact Hd].
Qed.

(** *** Plain text *)

Lemma sendMsg_node_texts (bot : Bot) chatId node st w :
  text_calls (snd (sendMsg_node bot chatId node st w)) = text_calls w.
Proof.
  destruct node as [s|type attrs]; [reflexivity|].
  unfold sendMsg_node. destruct (String.eqb type "image"); [|reflexivity].
  unfold bind. destruct (opt_truthy (p_image st)); [|reflexivity].
  pose proof (ApiFacts.flush_calls bot chatId st w) as (_ & Ht & _).
  destruct (flush bot chatId st w) as [[st0|e] w0]; exact Ht.
Qed.

(** The traversal never calls [_sendMsg], whether it resolves or throws. *)
Lemma sendMsg_loop_texts_kept (bot : Bot) chatId chain :
  forall st w, text_calls (snd (sendMsg_loop bot chatId chain st w)) = text_calls w.
Proof.
  induction chain as [|node rest IH]; intros st w; [reflexivity|].
  rewrite ApiFacts.sendMsg_loop_cons.
  pose proof (sendMsg_node_texts bot chatId node st w) as Hnode.
  destruct (sendMsg_node bot chatId node st w) as [[st1|e] w1]; cbn [snd] in Hnode.
  - rewrite IH. exact Hnode.
  - exact Hnode.
Qed.

(** After the traversal the buffer holds the url of the last image code. *)
Lemma sendMsg_loop_buffer (bot : Bot) chatId chain :
  forall st w st' w',
    sendMsg_loop bot chatId chain st w = (Return st', w') ->
    opt_truthy (p_image st')
    = match last (images chain) with
      | Some attrs => has_url attrs
      | None => opt_truthy (p_image st)
      end.
Proof.
  induction chain as [|node rest IH]; intros st w st' w'.
  - intros [= <- <-]. reflexivity.
  - rewrite ApiFacts.sendMsg_loop_cons.
    destruct (sendMsg_node bot chatId node st w) as [[st1|e] w1] eqn:Hnode;
      [|discriminate].
    intros Hrest. rewrite (IH _ _ _ _ Hrest). clear IH Hrest.
    destruct node as [s|type attrs].
    + rewrite ApiFacts.sendMsg_node_text in Hnode. injection Hnode as <- <-.
      reflexivity.
    + unfold sendMsg_node in Hnode. cbn [images].
      destruct (String.eqb type "image").
      * rewrite last_cons. unfold bind in Hnode.
        assert (p_image st1 = attrs !! "url") as Hurl.
        { destruct (opt_truthy (p_image st)).
          - destruct (flush bot chatId st w) as [[st0|e] w0]; [|discriminate].
            injection Hnode as <- <-. reflexivity.
          - injection Hnode as <- <-. reflexivity. }
        rewrite Hurl. destruct (last (images rest)); reflexivity.
      * injection Hnode as <- <-. reflexivity.
Qed.

Lemma sendMsg_finish_texts (bot : Bot) chatId st w :
  text_calls (snd (sendMsg_finish bot chatId st w))
  = (text_calls w
     + if opt_truthy (p_image st) then 0
       else if str_truthy (p_message st) then 1 else 0)%nat.
Proof.
  unfold sendMsg_finish, bind. destruct (opt_truthy (p_image st)).
  - pose proof (ApiFacts.flush_calls bot chatId st w) as (_ & Ht & _).
    destruct (flush bot chatId st w) as [[st1|e] w1]; simpl in *;
      unfold lift; cbn beta; cbn [snd]; rewrite ?Ht; lia.
  - destruct (str_truthy (p_message st)); [|unfold ret, lift; cbn [snd]; lia].
    pose proof (ApiFacts._sendMsg_calls bot chatId (p_message st) w) as (_ & Ht & _).
    destruct (_sendMsg bot chatId (p_message st) w) as [[r|e] w1]; simpl in *;
      unfold lift; cbn beta; cbn [snd]; rewrite ?Ht; lia.
Qed.

(** X10. [sendMsg] calls [_sendMsg] at most once, and not at all when the
    last image code of the message has a url: the text after it travels as
    the caption of that image. *)
Theorem sendMsg_text_at_most_once (bot : Bot) chatId message w :
  let w' := snd (sendMsg bot chatId message w) in
  (text_calls w' <= S (text_calls w))%nat
  /\ (last_image_usable (parseAll message) = true -> text_calls w' = text_calls w).
Proof.
  cbv zeta. unfold sendMsg, sendMsg_chain, bind.
  pose proof (sendMsg_loop_texts_kept bot chatId (parseAll message) locals0 w) as Hloop.
  destruct (sendMsg_loop bot chatId (parseAll message) locals0 w) as [[st|e] w1] eqn:Hrun;
    cbn [snd] in *.
  - rewrite sendMsg_finish_texts, Hloop.
    rewrite (sendMsg_loop_buffer _ _ _ _ _ _ _ Hrun). unfold last_image_usable.
    destruct (last (images (parseAll message))) as [attrs|].
    + destruct (has_url attrs); [split; [lia | intros _; lia]|].
      split; [|discriminate]. destruct (str_truthy (p_message st)); lia.
    + split; [|discriminate]. cbn [opt_truthy p_image locals0 str_truthy].
      destruct (str_truthy (p_message st)); lia.
  - split; [lia | intros _; exact Hloop].
Qed.

(** X11. A message without image codes is sent as one text, the text
    segments joined in order, whatever other codes stand between them; and
    when that text is empty nothing is sent at all, and all [sendMsg] does
    is throw a [TypeError]. *)
Theorem sendMsg_without_images (bot : Bot) chatId message w :
  images (parseAll message) = [] ->
  sendMsg bot chatId message w =
  if str_truthy (caption (parseAll message))
  then (r <- _sendMsg bot chatId (caption (parseAll message)) ;;
        lift (getProp r "messageId")) w
  else (Throw (TypeError "Cannot read property 'messageId' of undefined"), w).
Proof.
  intros Himg. unfold sendMsg, sendMsg_chain, bind.
  rewrite (ApiFacts.sendMsg_loop_texts _ _ _ Himg).
  unfold sendMsg_finish, bind. cbn [p_message p_image result locals0 opt_truthy str_truthy].
  change ("" ++ caption (parseAll message))%string with (caption (parseAll message)).
  destruct (str_truthy (caption (parseAll message))); [|reflexivity].
  destruct (_sendMsg bot chatId (caption (parseAll message)) w) as [[r|e] w1];
    reflexivity.
Qed.

Section WithHost.
Context `{Host}.

(** *** [sendGroupMsg] and [sendPrivateMsg] *)

Lemma send_session_vetoed (bot : Bot) type ctxType id message s' w w1 :
  str_truthy message = true ->
  bail (createSession bot type ctxType id message) "before-send" w
    = (Return (true, s'), w1) ->
  send_session bot type ctxType id message w = (Return VUndefined, w1).
Proof.
  intros Hmsg Hbail. unfold send_session, bind. cbv zeta. rewrite Hmsg.
  change (negb true) with false. cbv beta iota. rewrite Hbail.
  reflexivity.
Qed.

Lemma send_session_sent (bot : Bot) type ctxType id message s' w w1 :
  str_truthy message = true ->
  bail (createSession bot type ctxType id message) "before-send" w
    = (Return (false, s'), w1) ->
  exists e,
    send_session bot type ctxType id message w
    = (Throw e, snd (sendMsg bot id (Api.message s') w1)).
Proof.
  intros Hmsg Hbail. unfold send_session, bind. cbv zeta. rewrite Hmsg.
  change (negb true) with false. cbv beta iota. rewrite Hbail.
  cbn [negb fst snd].
  pose proof (ApiFacts.sendMsg_never_resolves bot id (Api.message s') w1) as Hnever.
  destruct (sendMsg bot id (Api.message s') w1) as [[v|e] w2]; [discriminate|].
  exists e. reflexivity.
Qed.

Lemma send_session_undefined (bot : Bot) type ctxType id message w :
  match fst (send_session bot type ctxType id message w) with
  | Return v => v = VUndefined
  | Throw _ => True
  end.
Proof.
  unfold send_session, bind. cbv zeta. destruct (str_truthy message); cbn [negb];
    [|reflexivity].
  destruct (bail _ "before-send" w) as [[[vetoed s']|e] w1]; [|exact I].
  cbn [fst snd]. destruct vetoed; [reflexivity|].
  pose proof (ApiFacts.sendMsg_never_resolves bot id (Api.message s') w1) as Hnever.
  destruct (sendMsg bot id (Api.message s') w1) as [[mid|e] w2];
    [discriminate | exact I].
Qed.

(** X12. When a [before-send] listener vetoes, [sendGroupMsg] and
    [sendPrivateMsg] resolve to [undefined] and nothing is sent: the trace
    is the one the listeners left. *)
Theorem send_vetoed (bot : Bot) id message s' w w1 :
  str_truthy message = true ->
  (bail (createSession bot "group" "group" id message) "before-send" w
     = (Return (true, s'), w1) ->
   sendGroupMsg bot id message w = (Return VUndefined, w1))
  /\ (bail (createSession bot "private" "user" id message) "before-send" w
        = (Return (true, s'), w1) ->
      sendPrivateMsg bot id message w = (Return VUndefined, w1)).
Proof.
  intros Hmsg. split; intros Hbail; eapply send_session_vetoed; eassumption.
Qed.

(** X13. When no listener vetoes, what is sent is the message of the
    session as the listeners left it, not the argument; and the call
    throws when [sendMsg] is through: the session gets no message id and
    the [send] event is not emitted. *)
Theorem send_unvetoed (bot : Bot) id message s' w w1 :
  str_truthy message = true ->
  (bail (createSession bot "group" "group" id message) "before-send" w
     = (Return (false, s'), w1) ->
   exists e, sendGroupMsg bot id message w
             = (Throw e, snd (sendMsg bot id (Api.message s') w1)))
  /\ (bail (createSession bot "private" "user" id message) "before-send" w
        = (Return (false, s'), w1) ->
      exists e, sendPrivateMsg bot id message w
                = (Throw e, snd (sendMsg bot id (Api.message s') w1))).
Proof.
  intros Hmsg. split; intros Hbail; eapply send_session_sent; eassumption.
Qed.

(** X14. [sendGroupMsg] and [sendPrivateMsg] never resolve to a message
    id: when they resolve, it is to [undefined]. *)
Theorem send_gives_no_id (bot : Bot) id message w :
  match fst (sendGroupMsg bot id message w) with
  | Return v => v = VUndefined
  | Throw _ => True
  end
  /\ match fst (sendPrivateMsg bot id message w) with
     | Return v => v = VUndefined
     | Throw _ => True
     end.
Proof. split; apply send_session_undefined. Qed.

End WithHost.

End WithUtils.

(** *** Runs *)

Lemma get_sends_one_request_witness :
  requests (snd (get (H := Model.utils) (Model.answering 2 VNull) "delete_msg"
                   (VObj [("messageId", VNum 7)]) false []))
  = [("delete_msg", VObj [("message_id", VNum 7)])].
Proof.
  exact (get_sends_one_request (H := Model.utils) (Model.answering 2 VNull)
           "delete_msg" (VObj [("messageId", VNum 7)]) false _ [] eq_refl).
Defined.

Lemma get_without_request_witness :
  _request Samples.idle_bot = None
  /\ get (H := Model.utils) Samples.idle_bot "getMe" (VObj []) false []
     = (Throw (TypeError "this._request is not a function"),
        [EvDebugRequest "getMe" (VObj [])]).
Proof.
  split; [reflexivity|].
  exact (get_without_request (H := Model.utils) Samples.idle_bot "getMe" (VObj [])
           false [] eq_refl).
Defined.

Lemma get_passes_rejection_witness :
  fst (get (H := Model.utils) Model.unreachable "getMe" (VObj []) true [])
  = Throw (Error "connect ECONNREFUSED").
Proof.
  exact (get_passes_rejection (H := Model.utils) Model.unreachable "getMe" (VObj [])
           true _ _ [] eq_refl eq_refl).
Defined.

Lemma getSelfId_by_retcode_witness :
  fst (getSelfId (H := Model.utils) (Model.answering 0 Samples.me) [])
  = Return (VNum 10000)
  /\ fst (getSelfId (H := Model.utils) (Model.answering 1 Samples.me) [])
     = Throw (TypeError "Cannot read property 'id' of undefined").
Proof.
  split.
  - exact (proj1 (getSelfId_by_retcode (H := Model.utils)
                    (Model.answering 0 Samples.me) [] _ _ eq_refl) eq_refl).
  - exact (proj2 (getSelfId_by_retcode (H := Model.utils)
                    (Model.answering 1 Samples.me) [] _ _ eq_refl) eq_refl).
Defined.

Lemma getStatusCode_total_witness :
  ready Samples.idle_bot = false
  /\ snd (getStatusCode (H := Model.utils) Samples.idle_bot []) = [].
Proof.
  split; [reflexivity|].
  destruct (getStatusCode_total (H := Model.utils) Samples.idle_bot [])
    as (code & _ & _ & _ & Hkept).
  exact (Hkept eq_refl).
Defined.

Lemma getStatusCode_by_retcode_witness :
  ready (Model.answering 400 VNull) = true
  /\ fst (getStatusCode (H := Model.utils) (Model.answering 400 VNull) [])
     = Return NET_ERROR.
Proof.
  split; [reflexivity|].
  exact (getStatusCode_by_retcode (H := Model.utils) (Model.answering 400 VNull) []
           _ _ 400 eq_refl eq_refl eq_refl).
Defined.


Lemma sendMsg_sends_usable_urls_witness :
  is_return (fst (sendMsg_loop (H := Model.utils) (Model.answering 0 Model.sent)
                    (ChatNum 5) (CQCode.parseAll file_image_message) locals0 []))
  = true
  /\ sent_photos (snd (sendMsg (H := Model.utils) (Model.answering 0 Model.sent)
                         (ChatNum 5) file_image_message []))
     = ["http://x/b.png"].
Proof.
  split; [vm_compute; reflexivity|].
  exact (proj2 (sendMsg_sends_usable_urls (H := Model.utils)
                  (Model.answering 0 Model.sent) (ChatNum 5) file_image_message [])
           ltac:(vm_compute; reflexivity)).
Defined.

Lemma sendMsg_text_at_most_once_witness :
  last_image_usable (CQCode.parseAll two_images_message) = true
  /\ text_calls (snd (sendMsg (H := Model.utils) (Model.answering 0 Model.sent)
                        (ChatNum 5) two_images_message [])) = 0%nat.
Proof.
  split; [vm_compute; reflexivity|].
  exact (proj2 (sendMsg_text_at_most_once (H := Model.utils)
                  (Model.answering 0 Model.sent) (ChatNum 5) two_images_message [])
           ltac:(vm_compute; reflexivity)).
Defined.

Lemma sendMsg_without_images_witness :
  images (CQCode.parseAll Samples.mention_message) = []
  /\ sendMsg (H := Model.utils) (Model.answering 0 Model.sent) (ChatNum 5)
       Samples.mention_message []
     = (r <- _sendMsg (H := Model.utils) (Model.answering 0 Model.sent) (ChatNum 5)
               "hi there" ;;
        lift (getProp r "messageId")) [].
Proof.
  split; [vm_compute; reflexivity|].
  exact (sendMsg_without_images (H := Model.utils) (Model.answering 0 Model.sent)
           (ChatNum 5) Samples.mention_message []
           ltac:(vm_compute; reflexivity)).
Defined.

Lemma send_vetoed_witness :
  sendGroupMsg (H := Model.utils) (H0 := Samples.vetoing_host)
    (Model.answering 0 Model.sent) (ChatNum 5) "hello" []
  = (Return VUndefined, [EvHost "before-send" (VStr "hello")]).
Proof.
  exact (proj1 (send_vetoed (H := Model.utils) (H0 := Samples.vetoing_host)
                  (Model.answering 0 Model.sent) (ChatNum 5) "hello" _ [] _ eq_refl)
           eq_refl).
Defined.

Lemma send_unvetoed_witness :
  exists e,
    sendGroupMsg (H := Model.utils) (H0 := Samples.rewriting_host)
      (Model.answering 0 Model.sent) (ChatNum 5) "hello" []
    = (Throw e,
       snd (sendMsg (H := Model.utils) (Model.answering 0 Model.sent) (ChatNum 5)
              "[redacted]" [])).
Proof.
  exact (proj1 (send_unvetoed (H := Model.utils) (H0 := Samples.rewriting_host)
                  (Model.answering 0 Model.sent) (ChatNum 5) "hello"
                  {| message := "[redacted]"; messageId := VUndefined;
                     fields := fields (createSession (Host := Model.host)
                                         (Model.answering 0 Model.sent)
                                         "group" "group" (ChatNum 5) "hello") |}
                  [] [] eq_refl)
           eq_refl).
Defined.

End ApiMore.

(** ** More properties of the webhook server *)

Module ServerMore.
Import HttpServer ServerProps.
Local Open Scope js_scope.
Local Open Scope list_scope.

Section WithEnv.
Context `{Env}.

(** X15. Without quick replies (no [quickOperation], or one that is not
    positive) the handler of a POST that parses leaves the context as it
    came, status and response untouched, arms no timer and attaches
    nothing to the session: it only dispatches. *)
Theorem post_without_quick_reply (options : AppOptions) t b session w :
  positive_number (quickOperation options) = false ->
  prepare b = Some session ->
  snd (happen options (Post t b) w) =
  {| clock := t;
     ctxs := ctxs w ++ [new_ctx b];
     sessions := sessions w ++ [session];
     timers := timers w;
     log := log w ++ [LogDebug "receive %o" b; Dispatch (length (sessions w))] |}.
Proof.
  intros Hquick Hprep. rewrite ServerFacts.post_unfold. cbv zeta.
  rewrite Hprep, Hquick. reflexivity.
Qed.

(** X16. A POST touches nothing that was there: the contexts, sessions and
    timers of earlier requests are as they were, whatever the body and the
    options. *)
Theorem post_keeps_earlier_requests (options : AppOptions) t b w :
  let w' := snd (happen options (Post t b) w) in
  (forall c, (c < length (ctxs w))%nat -> ctxs w' !! c = ctxs w !! c)
  /\ (forall meta, (meta < length (sessions w))%nat ->
        sessions w' !! meta = sessions w !! meta)
  /\ (forall timer, (timer < length (timers w))%nat ->
        timers w' !! timer = timers w !! timer).
Proof.
  cbv zeta. rewrite ServerFacts.post_unfold. cbv zeta. cbn [snd].
  destruct (prepare b) as [session|];
    [destruct (positive_number (quickOperation options))|];
    cbn [ctxs sessions timers];
    (split; [|split]); intros i Hi; rewrite ?lookup_app_l by exact Hi; reflexivity.
Qed.








End WithEnv.

(** *** Runs *)

Lemma post_without_quick_reply_witness :
  positive_number (quickOperation (Model.options [Model.telegram_bot] (Some 0)))
  = false
  /\ response (run (H := Model.env) (Model.options [Model.telegram_bot] (Some 0))
                 [Post 3 Model.update] world0) 0 = []
  /\ timers (run (H := Model.env) (Model.options [Model.telegram_bot] (Some 0))
               [Post 3 Model.update] world0) = [].
Proof.
  split; [reflexivity|].
  cbn [run].
  rewrite (post_without_quick_reply (H := Model.env)
             (Model.options [Model.telegram_bot] (Some 0)) 3 Model.update _ world0
             eq_refl eq_refl).
  split; reflexivity.
Defined.

Lemma post_keeps_earlier_requests_witness :
  let before := run (H := Model.env) quick_options [Post 0 Model.update] world0 in
  let after := snd (happen (H := Model.env) quick_options (Post 5 VNull) before) in
  (0 < length (ctxs before))%nat
  /\ ctxs after !! 0%nat = ctxs before !! 0%nat
  /\ timers after !! 0%nat = timers before !! 0%nat.
Proof.
  cbv zeta.
  destruct (post_keeps_earlier_requests (H := Model.env) quick_options 5 VNull
              (run (H := Model.env) quick_options [Post 0 Model.update] world0))
    as (Hctx & _ & Htimer).
  split; [vm_compute; lia|].
  split; [apply Hctx | apply Htimer]; vm_compute; lia.
Defined.


Lemma quick_reply_setup_witness :
  quickOperation quick_options = Some 100%Z
  /\ (100 <= TIMEOUT_MAX)%Z
  /\ timers (run (H := Model.env) quick_options [Post 7 Model.update] world0)
     !! 0%nat
     = Some {| due := 107; callback := TimeoutCallback 0 0; armed := true |}.
Proof.
  assert (100 <= TIMEOUT_MAX)%Z as Hmax by (vm_compute; discriminate).
  split; [reflexivity|]. split; [exact Hmax|].
  exact (proj2 (proj2 (proj2 (proj2
           (ServerFacts.quick_reply_setup (H := Model.env) quick_options
              100 7 Model.update _ world0 eq_refl eq_refl Hmax eq_refl))))).
Defined.

End ServerMore.

(** ** Properties of [_listen] and [__listen] *)

Module ListenFacts.
Import Listen ListenProps.
Local Open Scope js_scope.
Local Open Scope list_scope.

Section WithNet.
Context `{Net}.

(** [__listen] up to its [await], on a bot that is there. *)
Lemma __listen_start_unfold (i : nat) (b : BotState) w :
  bots w !! i = Some b ->
  __listen_start i w =
  (Return (settled (axios_get (server b) "setWebhook" (config (hook b)) (sent w))),
   {| _axios := Some {| baseURL := server b |};
      bots := alter listening i (bots w);
      routes := routes w;
      sent := sent w ++ [hook b];
      log := log w |}).
Proof.
  intros Hb. unfold __listen_start, bot_request, _request, bind, gets, set_bot,
    set_axios, add_sent, modify, ret.
  cbn [_axios bots routes sent log fst snd]. rewrite Hb.
  cbn [_axios bots routes sent log fst snd].
  rewrite list_lookup_alter_eq, list_lookup_alter_eq, Hb.
  cbn [fmap option_fmap option_map installed install_request baseURL].
  rewrite list_alter_alter_eq.
  cbn [_axios bots routes sent log baseURL].
  replace (alter (install_request ∘ mark_ready) i (bots w))
    with (alter listening i (bots w))
    by (apply list_alter_ext; [intros x _|]; reflexivity).
  reflexivity.
Qed.

(** X21. [__listen] marks the bot ready and gives it its [_request] before
    it asks the remote side: the bot is left ready, with a [_request],
    also when the registration of the webhook fails; the other bots are
    not touched. *)
Theorem __listen_marks_ready (i : nat) (b : BotState) w :
  bots w !! i = Some b ->
  let w' := snd (__listen i w) in
  bots w' !! i = Some (listening b)
  /\ (forall j, j <> i -> bots w' !! j = bots w !! j).
Proof.
  intros Hb. cbv zeta. unfold __listen, bind.
  rewrite (__listen_start_unfold i b w Hb).
  assert (alter listening i (bots w) !! i = Some (listening b)) as Hi.
  { rewrite list_lookup_alter_eq, Hb. reflexivity. }
  assert (forall j, j <> i -> alter listening i (bots w) !! j = bots w !! j) as Hj.
  { intros j Hne. apply list_lookup_alter_ne. congruence. }
  unfold __listen_finish.
  destruct (settled _) as [v|e]; unfold bind, gets, add_log, modify, throw;
    cbn [bots fst snd]; split; assumption.
Qed.

(** X22. [__listen] sends one GET, [setWebhook] on the bot's own server
    with the bot's url, and looks at nothing in the answer: whatever the
    body says, error codes included, it resolves and logs the connection;
    it throws only what the GET rejects with. *)
Theorem __listen_ignores_the_answer (i : nat) (b : BotState) w :
  bots w !! i = Some b ->
  sent (snd (__listen i w)) = sent w ++ [hook b]
  /\ (forall body,
        axios_get (server b) "setWebhook" (config (hook b)) (sent w)
          = Return (VObj [("data", body)]) ->
        fst (__listen i w) = Return tt
        /\ log (snd (__listen i w)) = log w ++ [Connected (server b)])
  /\ (forall e,
        axios_get (server b) "setWebhook" (config (hook b)) (sent w) = Throw e ->
        fst (__listen i w) = Throw e /\ log (snd (__listen i w)) = log w).
Proof.
  intros Hb. unfold __listen, bind.
  rewrite (__listen_start_unfold i b w Hb). split; [|split].
  - unfold __listen_finish.
    destruct (settled _) as [v|e]; unfold bind, gets, add_log, modify, throw;
      reflexivity.
  - intros body ->. cbn [settled getProp assoc String.eqb].
    unfold __listen_finish, bind, gets, add_log, modify.
    cbn [bots log fst snd]. rewrite list_lookup_alter_eq, Hb. split; reflexivity.
  - intros e ->. split; reflexivity.
Qed.

(** *** All bots *)

Lemma __listen_finish_log_only (i : nat) answer w :
  let w' := snd (__listen_finish i answer w) in
  _axios w' = _axios w /\ bots w' = bots w /\ routes w' = routes w
  /\ sent w' = sent w.
Proof.
  cbv zeta. unfold __listen_finish.
  destruct answer as [v|e]; unfold bind, gets, add_log, modify, throw;
    repeat split.
Qed.

Lemma settle_all_log_only answers :
  forall w,
    let w' := snd (settle_all answers w) in
    _axios w' = _axios w /\ bots w' = bots w /\ routes w' = routes w
    /\ sent w' = sent w.
Proof.
  induction answers as [|[i answer] rest IH]; intros w; [repeat split|].
  cbv zeta. cbn [settle_all].
  pose proof (__listen_finish_log_only i answer w) as Hfin. cbv zeta in Hfin.
  destruct (__listen_finish i answer w) as [[u|e] w1]; cbn [snd] in *;
    specialize (IH w1); cbv zeta in IH;
    destruct Hfin as (F1 & F2 & F3 & F4); destruct IH as (I1 & I2 & I3 & I4);
    repeat split; congruence.
Qed.

(** The calls of [__listen] on the bots from index [k] on, each up to its
    [await]. *)
Lemma start_all_unfold (n : nat) :
  forall k w,
    (k + n)%nat = length (bots w) ->
    exists answers,
      start_all (seq k n) w =
      (Return answers,
       {| _axios := match last (drop k (bots w)) with
                    | Some b => Some {| baseURL := server b |}
                    | None => _axios w
                    end;
          bots := take k (bots w) ++ (listening <$> drop k (bots w));
          routes := routes w;
          sent := sent w ++ (hook <$> drop k (bots w));
          log := log w |}).
Proof.
  induction n as [|n IH]; intros k w Hlen.
  - exists []. cbn [seq start_all]. unfold ret.
    rewrite drop_ge, take_ge by lia. cbn [last fmap list_fmap].
    rewrite !app_nil_r. destruct w; reflexivity.
  - destruct (lookup_lt_is_Some_2 (bots w) k) as [b Hb]; [lia|].
    cbn [seq start_all]. unfold bind at 1.
    rewrite (__listen_start_unfold k b w Hb).
    destruct (IH (S k) {| _axios := Some {| baseURL := server b |};
                          bots := alter listening k (bots w);
                          routes := routes w; sent := sent w ++ [hook b];
                          log := log w |}) as (answers & Hrest).
    { cbn [bots]. rewrite length_alter. lia. }
    unfold bind. rewrite Hrest. eexists. unfold ret. f_equal.
    cbn [_axios bots routes sent log].
    rewrite drop_alter_lt by lia.
    rewrite (take_S_r _ _ (listening b))
      by (rewrite list_lookup_alter_eq, Hb; reflexivity).
    rewrite take_alter_ge by lia.
    rewrite (drop_S _ _ _ Hb). cbn [fmap list_fmap]. rewrite last_cons.
    rewrite <- !app_assoc. cbn [app].
    destruct (last (drop (S k) (bots w))); reflexivity.
Qed.

(** The world once [__listen] has run on every bot. *)
Lemma listen_bots_world w :
  let w' := snd (listen_bots w) in
  routes w' = routes w
  /\ bots w' = listening <$> bots w
  /\ sent w' = sent w ++ (hook <$> bots w)
  /\ _axios w' = match last (bots w) with
                 | Some b => Some {| baseURL := server b |}
                 | None => _axios w
                 end.
Proof.
  cbv zeta. unfold listen_bots, bind, gets. cbn [fst snd].
  destruct (start_all_unfold (length (bots w)) 0 w eq_refl) as (answers & Hstart).
  rewrite Hstart.
  pose proof (settle_all_log_only answers) as Hsettle. cbv zeta in Hsettle.
  match goal with |- context [settle_all answers ?w0] =>
    destruct (Hsettle w0) as (-> & -> & -> & ->) end.
  cbn [_axios bots routes sent]. rewrite !drop_0. cbn [take app]. repeat split.
Qed.

(** X24. The axios instance is the server's, not the bot's, and the
    [_request] of every bot reads it when it is called: once [__listen]
    has run on all bots, as [_listen] runs it, every request of every bot
    goes to the server of the last bot. *)
Theorem listen_bots_share_axios (b : BotState) w :
  last (bots w) = Some b ->
  let w' := snd (listen_bots w) in
  _axios w' = Some {| baseURL := server b |}
  /\ (forall i action params,
        (i < length (bots w))%nat ->
        sent (snd (bot_request i action params w'))
        = sent w' ++ [{| via := server b; path := action; config := params |}]).
Proof.
  intros Hlast. cbv zeta.
  destruct (listen_bots_world w) as (_ & Hbots & _ & Haxios).
  rewrite Hlast in Haxios.
  split; [exact Haxios|].
  intros i action params Hi.
  destruct (lookup_lt_is_Some_2 (bots w) i Hi) as [bi Hbi].
  unfold bot_request, bind, gets. cbn beta iota. cbn [fst snd].
  rewrite Hbots, list_lookup_fmap, Hbi.
  cbn [fmap option_fmap option_map installed listening].
  unfold _request, bind, gets. cbn beta iota. cbn [fst snd]. rewrite Haxios.
  unfold add_sent, modify, ret. reflexivity.
Qed.

Section WithRouter.
Context `{Router}.

(** X23. [_listen] throws before anything is touched when the url is
    invalid, and also when [router.post] throws for the href of the url:
    then no route is registered and no bot is started.  When the router
    takes the path, one POST route is registered, at the href, and
    [__listen] is started on every bot in order: each bot is left ready
    with its [_request], and one [setWebhook] went to each bot's server. *)
Theorem _listen_starts_all (options_url : string) w :
  match href options_url with
  | None => _listen options_url w = (Throw (TypeError "Invalid URL"), w)
  | Some p =>
      match router_post p with
      | Throw e => _listen options_url w = (Throw e, w)
      | Return _ =>
          let w' := snd (_listen options_url w) in
          routes w' = routes w ++ [p]
          /\ bots w' = listening <$> bots w
          /\ sent w' = sent w ++ (hook <$> bots w)
      end
  end.
Proof.
  unfold _listen. destruct (href options_url) as [p|]; [|reflexivity].
  unfold bind at 1. unfold lift.
  destruct (router_post p) as [u|e]; [|reflexivity].
  cbv zeta. unfold bind, add_route, modify. cbn [fst snd].
  match goal with |- context [listen_bots ?w0] =>
    destruct (listen_bots_world w0) as (Hr & Hb & Hs & _) end.
  rewrite Hr, Hb, Hs. repeat split.
Qed.

End WithRouter.

End WithNet.

(** *** Runs *)

Lemma __listen_marks_ready_witness :
  fst (__listen (H := Samples.dead_net) 0 Samples.two_bots)
  = Throw (Error "connect ECONNREFUSED")
  /\ bots (snd (__listen (H := Samples.dead_net) 0 Samples.two_bots)) !! 0%nat
     = Some (listening (Samples.bot_on "http://a.example")).
Proof.
  split; [reflexivity|].
  exact (proj1 (__listen_marks_ready (H := Samples.dead_net) 0 _ Samples.two_bots
                  eq_refl)).
Defined.

Lemma __listen_ignores_the_answer_witness :
  fst (__listen (H := Samples.net Samples.refused) 0 Samples.two_bots) = Return tt
  /\ log (snd (__listen (H := Samples.net Samples.refused) 0 Samples.two_bots))
     = [Connected (Some "http://a.example")].
Proof.
  exact (proj1 (proj2 (__listen_ignores_the_answer (H := Samples.net Samples.refused)
                         0 _ Samples.two_bots eq_refl))
           Samples.refused eq_refl).
Defined.

Lemma listen_bots_share_axios_witness :
  last (bots Samples.two_bots) = Some (Samples.bot_on "http://b.example")
  /\ sent (snd (bot_request (H := Samples.net Samples.refused) 0 "getMe" (VObj [])
                  (snd (listen_bots (H := Samples.net Samples.refused)
                          Samples.two_bots))))
     = [hook (Samples.bot_on "http://a.example");
        hook (Samples.bot_on "http://b.example");
        {| via := Some "http://b.example"; path := "getMe"; config := VObj [] |}].
Proof.
  split; [reflexivity|].
  exact (proj2 (listen_bots_share_axios (H := Samples.net Samples.refused)
                  _ Samples.two_bots eq_refl)
           0%nat "getMe" (VObj []) ltac:(vm_compute; lia)).
Defined.

(** With a router that refuses a colon without a parameter name, [_listen]
    on an absolute url throws at [router.post], and no bot is started. *)
Lemma _listen_starts_all_witness :
  _listen (H := Samples.net Samples.refused) (H0 := Samples.strict_router)
    "http://127.0.0.1:8080/telegram" Samples.two_bots
  = (Throw (TypeError "Missing parameter name at 4"), Samples.two_bots)
  /\ sent (snd (_listen (H := Samples.net Samples.refused)
                  (H0 := Samples.lenient_router)
                  "http://127.0.0.1:8080/telegram" Samples.two_bots))
     = [hook (Samples.bot_on "http://a.example");
        hook (Samples.bot_on "http://b.example")].
Proof.
  split.
  - exact (_listen_starts_all (H := Samples.net Samples.refused)
             (H0 := Samples.strict_router)
             "http://127.0.0.1:8080/telegram" Samples.two_bots).
  - exact (proj2 (proj2 (_listen_starts_all (H := Samples.net Samples.refused)
                           (H0 := Samples.lenient_router)
                           "http://127.0.0.1:8080/telegram" Samples.two_bots))).
Defined.

End ListenFacts.
